(** * Flame graph key handling and stack-graph height: a shallow embedding

  The development follows two React components of the profiler front end:

  - [StackGraph.js] ([ThreadStackGraph]): the per-sample height function and
    the maximum depth handed to [ThreadHeightGraph];
  - the flame graph component ([FlameGraphImpl]): [_wideEnough],
    [_nextSelectableInRow], [_onCallNodeEnterOrDoubleClick] and
    [_handleKeyDown].

  JavaScript numbers that are indices are integers ([Z]); the start and end
  offsets of flame-graph boxes are IEEE binary64 numbers ([float]), so that
  [undefined - undefined] is NaN and compares false against the threshold,
  as it does in the browser. *)

From Stdlib Require Import ZArith String List Sorted Bool Lia PrimFloat.
Import ListNotations.

Local Open Scope Z_scope.

(** ** JavaScript arrays and values *)

Module Js.

(** A value that is a number, [null] or [undefined]. *)
Inductive Value : Type :=
| Undefined
| Null
| Number (n : Z).

(** [a[i]]: the element, or [undefined] ([None]) outside [0 .. length-1]. *)
Definition get {A : Type} (a : list A) (i : Z) : option A :=
  if i <? 0 then None else nth_error a (Z.to_nat i).

(** A number read from an array, [undefined] when the read missed. *)
Definition ofRead (r : option Z) : Value :=
  match r with
  | Some n => Number n
  | None => Undefined
  end.

(** [Array.prototype.indexOf] on an array of integers: a scan from the
    left with strict equality, [-1] when nothing matches. *)
Fixpoint indexOfFrom (a : list Z) (x : Z) (i : Z) : Z :=
  match a with
  | [] => -1
  | y :: a' => if y =? x then i else indexOfFrom a' x (i + 1)
  end.

Definition indexOf (a : list Z) (x : Z) : Z := indexOfFrom a x 0.

(** [ToNumber] of an array read: [undefined] becomes NaN. *)
Definition toNumber (r : option float) : float :=
  match r with
  | Some f => f
  | None => nan
  end.

(** [x > y] on numbers. *)
Definition gt (x y : float) : bool := PrimFloat.ltb y x.

End Js.

(** ** The call-node table (owned by the profile logic, read here) *)

Record CallNodeTable : Type := {
  prefix : list Z;   (* parent of each call node, -1 for a root *)
  depth : list Z     (* depth of each call node *)
}.


(** ** StackGraph.js *)

Module StackGraph.

Record Props : Type := {
  sampleCallNodes : list (option Z);   (* [None] is [null] *)
  callNodeTable : CallNodeTable
}.

(** [_heightFunction]. *)
Definition _heightFunction (props : Props) (sampleIndex : Z) : Js.Value :=
  match Js.get (sampleCallNodes props) sampleIndex with
  | Some None => Js.Null
  | Some (Some callNodeIndex) =>
      Js.ofRead (Js.get (depth (callNodeTable props)) callNodeIndex)
  | None =>
      (* [undefined === null] is false, and [depth[undefined]] is
         [undefined] *)
      Js.Undefined
  end.

(** The [for] loop of [render]: [i] runs over [0 .. depth.length-1]. *)
Definition maxDepthLoop (depthColumn : list Z) : Z :=
  fold_left
    (fun maxDepth i =>
       match Js.get depthColumn (Z.of_nat i) with
       | Some d => if d >? maxDepth then d else maxDepth
       | None => maxDepth
       end)
    (seq 0 (length depthColumn)) 0.

(** What [render] hands to [ThreadHeightGraph] (the props it computes). *)
Record HeightGraphProps : Type := {
  heightFunc : Z -> Js.Value;
  maxValue : Z
}.

Definition render (props : Props) : HeightGraphProps :=
  {| heightFunc := _heightFunction props;
     maxValue := maxDepthLoop (depth (callNodeTable props)) |}.

(** The loop body as a step on the running maximum. *)
Definition bump (maxDepth d : Z) : Z := if d >? maxDepth then d else maxDepth.

(** A sample table and call-node table used to run the definitions. *)
Definition exampleTable : CallNodeTable :=
  {| prefix := [-1; 0; 1; 0]; depth := [0; 1; 2; 1] |}.

Definition exampleProps : Props :=
  {| sampleCallNodes := [Some 2; None; Some 3; Some 9];
     callNodeTable := exampleTable |}.

(** The same table with every sample inside the depth column. *)
Definition tidyProps : Props :=
  {| sampleCallNodes := [Some 2; None; Some 3];
     callNodeTable := exampleTable |}.

End StackGraph.

(** ** The flame graph component *)

Module FlameGraph.

(** How wide a call node box needs to be for keyboard selection. *)
#[warnings="-inexact-float"]
Definition SELECTABLE_THRESHOLD : float := 0.001%float.

(** One depth row of the flame-graph timing: parallel arrays. *)
Record TimingRow : Type := {
  start : list float;
  end_ : list float;
  callNode : list Z
}.

Record KeyboardEvent : Type := {
  key : string
}.

(** What can go wrong while a method runs: reading a property of
    [undefined] throws; [OutOfFuel] marks a loop cut by its iteration budget. *)
Inductive Res (A : Type) : Type :=
| Ok (a : A)
| ThrowTypeError
| OutOfFuel.

Arguments Ok {A} a.
Arguments ThrowTypeError {A}.
Arguments OutOfFuel {A}.

(** [row.end[columnIndex] - row.start[columnIndex] > SELECTABLE_THRESHOLD]. *)
Definition wideAt (row : TimingRow) (columnIndex : Z) : bool :=
  Js.gt
    (PrimFloat.sub (Js.toNumber (Js.get (end_ row) columnIndex))
                   (Js.toNumber (Js.get (start row) columnIndex)))
    SELECTABLE_THRESHOLD.

(** The [do ... while] loop of [_nextSelectableInRow], entered with the
    column index before the step; [None] when [fuel] iterations did not
    reach an exit, otherwise the [callNodeIndex] the loop left with
    ([Some None] is [undefined]). *)
Fixpoint scanRow (fuel : nat) (row : TimingRow) (direction columnIndex : Z)
  : option (option Z) :=
  match fuel with
  | O => None
  | S fuel' =>
      let columnIndex := columnIndex + direction in
      let callNodeIndex := Js.get (callNode row) columnIndex in
      if wideAt row columnIndex then Some callNodeIndex
      else
        match callNodeIndex with
        | Some _ => scanRow fuel' row direction columnIndex
        | None => Some None
        end
  end.

(** The double quote character, for messages. *)
Definition dquote : string :=
  String (Ascii.Ascii false true false false false true false false) EmptyString.

Section Component.

(** Types and helpers owned by the rest of the application. *)
Context {ThreadsKey BottomBoxInfo CallNodePath : Type}.
Variable getCallNodePathFromIndex : Js.Value -> CallNodeTable -> CallNodePath.

Record CallTree : Type := {
  getChildren : Z -> list Z;
  getBottomBoxInfoForCallNode : Z -> BottomBoxInfo
}.

Record Props : Type := {
  flameGraphTiming : list TimingRow;
  callTree : CallTree;
  callNodeTable : CallNodeTable;     (* [callNodeInfo.callNodeTable] *)
  threadsKey : ThreadsKey;
  selectedCallNodeIndex : option Z;      (* [None] is [null] *)
  rightClickedCallNodeIndex : option Z   (* [None] is [null] *)
}.

(** The actions handed to the dispatcher. *)
Inductive Action : Type :=
| changeSelectedCallNode (k : ThreadsKey) (path : CallNodePath)
| changeRightClickedCallNode (k : ThreadsKey) (path : CallNodePath)
| handleCallNodeTransformShortcut (event : KeyboardEvent) (k : ThreadsKey)
    (nodeIndex : Z)
| updateBottomBoxContentsAndMaybeOpen (source : string) (info : BottomBoxInfo).

Inductive Effect : Type :=
| Dispatch (a : Action)
| ConsoleError (message : string).

(** [flameGraphTiming[callNodeTable.depth[callNodeIndex]]]; [None] is
    [undefined]. *)
Definition rowOf (props : Props) (callNodeIndex : Z) : option TimingRow :=
  match Js.get (depth (callNodeTable props)) callNodeIndex with
  | Some d => Js.get (flameGraphTiming props) d
  | None => None
  end.

Definition _onSelectedCallNodeChange (props : Props)
  (callNodeIndex : option Z) : list Effect :=
  [Dispatch
     (changeSelectedCallNode (threadsKey props)
        (getCallNodePathFromIndex
           (match callNodeIndex with Some i => Js.Number i | None => Js.Null end)
           (callNodeTable props)))].

Definition _onRightClickedCallNodeChange (props : Props)
  (callNodeIndex : option Z) : list Effect :=
  [Dispatch
     (changeRightClickedCallNode (threadsKey props)
        (getCallNodePathFromIndex
           (match callNodeIndex with Some i => Js.Number i | None => Js.Null end)
           (callNodeTable props)))].

Definition _onCallNodeEnterOrDoubleClick (props : Props)
  (callNodeIndex : option Z) : list Effect :=
  match callNodeIndex with
  | None => []
  | Some callNodeIndex =>
      let bottomBoxInfo :=
        getBottomBoxInfoForCallNode (callTree props) callNodeIndex in
      [Dispatch (updateBottomBoxContentsAndMaybeOpen "flame-graph" bottomBoxInfo)]
  end.

Definition _wideEnough (props : Props) (callNodeIndex : Z) : Res bool :=
  match rowOf props callNodeIndex with
  | None => ThrowTypeError
  | Some row =>
      let columnIndex := Js.indexOf (callNode row) callNodeIndex in
      Ok (wideAt row columnIndex)
  end.

Definition _nextSelectableInRow (props : Props) (startingCallNodeIndex : Z)
  (direction : Z) : Res (option Z) :=
  match rowOf props startingCallNodeIndex with
  | None => ThrowTypeError
  | Some row =>
      let columnIndex := Js.indexOf (callNode row) startingCallNodeIndex in
      match scanRow (S (length (callNode row))) row direction columnIndex with
      | Some callNodeIndex => Ok callNodeIndex
      | None => OutOfFuel
      end
  end.

Definition arrowKeys : list string :=
  ["ArrowDown"; "ArrowUp"; "ArrowLeft"; "ArrowRight"]%string.

Definition includes (keys : list string) (k : string) : bool :=
  existsb (String.eqb k) keys.

Definition unknownKeyMessage (k : string) : string :=
  ("An unknown key " ++ dquote ++ k ++ dquote
   ++ " was pressed, this shouldn't happen.")%string.

Definition selectCallNode (props : Props) (callNodeIndex : Js.Value) : Effect :=
  Dispatch
    (changeSelectedCallNode (threadsKey props)
       (getCallNodePathFromIndex callNodeIndex (callNodeTable props))).

(** [_handleKeyDown]: the effects performed, in order, and how the call
    ended. *)
Definition _handleKeyDown (props : Props) (event : KeyboardEvent)
  : list Effect * Res unit :=
  if includes arrowKeys (key event) then
    match selectedCallNodeIndex props with
    | None =>
        (* Just select the "root" node if we've got no prior selection. *)
        ([selectCallNode props (Js.Number 0)], Ok tt)
    | Some selected =>
        if (key event =? "ArrowDown")%string then
          match Js.get (prefix (callNodeTable props)) selected with
          | Some (-1) => ([], Ok tt)
          | p => ([selectCallNode props (Js.ofRead p)], Ok tt)
          end
        else if (key event =? "ArrowUp")%string then
          match getChildren (callTree props) selected with
          | [] => ([], Ok tt)
          | callNodeIndex :: _ =>
              match _wideEnough props callNodeIndex with
              | Ok true => ([selectCallNode props (Js.Number callNodeIndex)], Ok tt)
              | Ok false => ([], Ok tt)
              | ThrowTypeError => ([], ThrowTypeError)
              | OutOfFuel => ([], OutOfFuel)
              end
          end
        else if ((key event =? "ArrowLeft") || (key event =? "ArrowRight"))%string
        then
          match
            _nextSelectableInRow props selected
              (if (key event =? "ArrowLeft")%string then -1 else 1)
          with
          | Ok (Some callNodeIndex) =>
              ([selectCallNode props (Js.Number callNodeIndex)], Ok tt)
          | Ok None => ([], Ok tt)
          | ThrowTypeError => ([], ThrowTypeError)
          | OutOfFuel => ([], OutOfFuel)
          end
        else
          (* We shouldn't arrive here, thanks to the if block at the top. *)
          ([ConsoleError (unknownKeyMessage (key event))], Ok tt)
    end
  else
    (* Otherwise, handle shortcuts for the call node transforms. *)
    let nodeIndex :=
      match rightClickedCallNodeIndex props with
      | Some rightClicked => Some rightClicked
      | None => selectedCallNodeIndex props
      end in
    match nodeIndex with
    | None => ([], Ok tt)
    | Some nodeIndex =>
        if (key event =? "Enter")%string then
          (_onCallNodeEnterOrDoubleClick props (Some nodeIndex), Ok tt)
        else
          ([Dispatch
              (handleCallNodeTransformShortcut event (threadsKey props) nodeIndex)],
           Ok tt)
    end.

(** The application state behind the dispatcher: each dispatched action is
    reduced into the store; logging leaves it alone. *)
Context {Store : Type}.
Variable reduce : Store -> Action -> Store.

Definition storeAfter (store : Store) (effects : list Effect) : Store :=
  fold_left
    (fun st e =>
       match e with
       | Dispatch a => reduce st a
       | ConsoleError _ => st
       end)
    effects store.

(** The error messages among the effects. *)
Definition loggedErrors (effects : list Effect) : list string :=
  flat_map
    (fun e => match e with ConsoleError m => [m] | Dispatch _ => [] end)
    effects.

End Component.

(** [to] lies beyond [from] in the direction of travel. *)
Definition ahead (direction from to : Z) : Prop := 0 < (to - from) * direction.

(** *** The component on a small profile

    Six call nodes: 0 is the root with children 1, 3 and 5; 2 is a child of
    1 that has no time in the current selection and so no box; 4 is a child
    of 3. The boxes of 5 and 4 are narrower than the threshold. *)

Definition exampleTable : CallNodeTable :=
  {| prefix := [-1; 0; 1; 0; 3; 0]; depth := [0; 1; 2; 1; 2; 1] |}.

#[warnings="-inexact-float"]
Definition exampleRow0 : TimingRow :=
  {| start := [0%float]; end_ := [1%float]; callNode := [0] |}.

#[warnings="-inexact-float"]
Definition exampleRow1 : TimingRow :=
  {| start := [0%float; 0.6%float; 0.6005%float];
     end_ := [0.6%float; 0.6005%float; 1%float];
     callNode := [1; 5; 3] |}.

#[warnings="-inexact-float"]
Definition exampleRow2 : TimingRow :=
  {| start := [0.6005%float]; end_ := [0.6009%float]; callNode := [4] |}.

Definition exampleTree : @CallTree Z :=
  {| getChildren := fun n =>
       if n =? 0 then [1; 3; 5] else if n =? 3 then [4] else [];
     getBottomBoxInfoForCallNode := fun n => n |}.

Definition exampleProps (selected rightClicked : option Z) : @Props string Z :=
  {| flameGraphTiming := [exampleRow0; exampleRow1; exampleRow2];
     callTree := exampleTree;
     callNodeTable := exampleTable;
     threadsKey := "thread-0"%string;
     selectedCallNodeIndex := selected;
     rightClickedCallNodeIndex := rightClicked |}.

(** A stand-in for the application's path function, to run the handler:
    the call nodes from the root down to the given one. *)
Fixpoint pathTo (fuel : nat) (table : CallNodeTable) (i : Z) (acc : list Z)
  : list Z :=
  match fuel with
  | O => acc
  | S fuel' =>
      if i =? -1 then acc
      else
        match Js.get (prefix table) i with
        | Some p => pathTo fuel' table p (i :: acc)
        | None => i :: acc
        end
  end.

Definition examplePath (v : Js.Value) (table : CallNodeTable) : list Z :=
  match v with
  | Js.Number i => pathTo (S (length (prefix table))) table i []
  | _ => []
  end.

(** A stand-in for the store: it keeps the selected path. *)
Definition exampleReduce (store : option (list Z))
  (a : @Action string Z (list Z)) : option (list Z) :=
  match a with
  | changeSelectedCallNode _ path => Some path
  | _ => store
  end.

Definition keyEvent (k : string) : KeyboardEvent := {| key := k |}.

(** The same profile with node 1 selected and a call tree that lists node
    2, which has no box, as the child of node 1. *)
Definition idleChildProps : @Props string Z :=
  {| flameGraphTiming := [exampleRow0; exampleRow1; exampleRow2];
     callTree :=
       {| getChildren := fun n => if n =? 1 then [2] else [];
          getBottomBoxInfoForCallNode := fun n => n |};
     callNodeTable := exampleTable;
     threadsKey := "thread-0"%string;
     selectedCallNodeIndex := Some 1;
     rightClickedCallNodeIndex := None |}.

End FlameGraph.

(** * Properties *)

(** ** Array reads and [indexOf] *)

Module JsFacts.

Import Js.

Lemma get_nil (A : Type) (i : Z) : get (@nil A) i = None.
Proof.
  unfold get. destruct (i <? 0); [reflexivity|].
  destruct (Z.to_nat i); reflexivity.
Qed.

Lemma get_Some_range (A : Type) (a : list A) (i : Z) (x : A) :
  get a i = Some x -> 0 <= i < Z.of_nat (length a).
Proof.
  unfold get. destruct (Z.ltb_spec i 0); [discriminate|].
  intros E. assert (Hlt : (Z.to_nat i < length a)%nat).
  { apply nth_error_Some. congruence. }
  lia.
Qed.

Lemma get_in_range (A : Type) (a : list A) (i : Z) :
  0 <= i < Z.of_nat (length a) -> exists x, get a i = Some x.
Proof.
  intros Hi. unfold get. destruct (Z.ltb_spec i 0); [lia|].
  destruct (nth_error a (Z.to_nat i)) eqn:E; [eauto|].
  apply nth_error_None in E. lia.
Qed.

Lemma get_None_iff (A : Type) (a : list A) (i : Z) :
  get a i = None <-> (i < 0 \/ Z.of_nat (length a) <= i).
Proof.
  split.
  - intros E. destruct (Z_lt_dec i 0); [now left|].
    destruct (Z_le_dec (Z.of_nat (length a)) i); [now right|].
    destruct (get_in_range A a i) as [x Hx]; [lia|congruence].
  - intros H. destruct (get a i) eqn:E; [|reflexivity].
    apply get_Some_range in E. lia.
Qed.

Lemma get_of_nat (A : Type) (a : list A) (n : nat) :
  get a (Z.of_nat n) = nth_error a n.
Proof.
  unfold get. destruct (Z.ltb_spec (Z.of_nat n) 0); [lia|].
  now rewrite Nat2Z.id.
Qed.

Lemma get_In (A : Type) (a : list A) (i : Z) (x : A) :
  get a i = Some x -> In x a.
Proof.
  unfold get. destruct (i <? 0); [discriminate|]. apply nth_error_In.
Qed.

(** [indexOf] answers [-1] or a position inside the array. *)
Lemma indexOfFrom_range (a : list Z) (x i : Z) :
  indexOfFrom a x i = -1 \/
  i <= indexOfFrom a x i < i + Z.of_nat (length a).
Proof.
  revert i. induction a as [|y a IH]; intros i; simpl; [now left|].
  destruct (y =? x).
  - right. lia.
  - destruct (IH (i + 1)) as [E|R]; [now left|right; lia].
Qed.

Lemma indexOf_range (a : list Z) (x : Z) :
  -1 <= indexOf a x < Z.of_nat (length a).
Proof.
  unfold indexOf. destruct (indexOfFrom_range a x 0) as [E|R]; [|lia].
  rewrite E. lia.
Qed.

Lemma get_cons (A : Type) (y : A) (a : list A) (j : Z) :
  0 <= j -> get (y :: a) (j + 1) = get a j.
Proof.
  intros Hj. unfold get.
  destruct (Z.ltb_spec (j + 1) 0); [lia|].
  destruct (Z.ltb_spec j 0); [lia|].
  replace (Z.to_nat (j + 1)) with (S (Z.to_nat j)) by lia. reflexivity.
Qed.

(** [indexOf] finds an element that is there. *)
Lemma indexOfFrom_found (a : list Z) (x i : Z) :
  In x a -> get a (indexOfFrom a x i - i) = Some x.
Proof.
  revert i. induction a as [|y a IH]; intros i Hin; [destruct Hin|].
  simpl. destruct (Z.eqb_spec y x) as [->|Hne].
  - now rewrite Z.sub_diag.
  - destruct Hin as [E|Hin]; [congruence|].
    specialize (IH (i + 1) Hin).
    pose proof (get_Some_range _ _ _ _ IH) as R.
    replace (indexOfFrom a x (i + 1) - i)
      with (indexOfFrom a x (i + 1) - (i + 1) + 1) by lia.
    rewrite get_cons by lia. exact IH.
Qed.

Lemma indexOf_found (a : list Z) (x : Z) :
  In x a -> get a (indexOf a x) = Some x.
Proof.
  intros Hin. unfold indexOf.
  rewrite <- (Z.sub_0_r (indexOfFrom a x 0)). now apply indexOfFrom_found.
Qed.

End JsFacts.

(** ** StackGraph.js *)

Module StackGraphFacts.

Import StackGraph.

Lemma bump_max (m d : Z) : bump m d = Z.max m d.
Proof. unfold bump. destruct (Z.gtb_spec d m); lia. Qed.

Lemma indexed_fold_ext (pre suf : list Z) (acc : Z) :
  fold_left
    (fun maxDepth i =>
       match Js.get (pre ++ suf) (Z.of_nat i) with
       | Some d => if d >? maxDepth then d else maxDepth
       | None => maxDepth
       end)
    (seq (length pre) (length suf)) acc
  = fold_left bump suf acc.
Proof.
  revert pre acc. induction suf as [|x suf IH]; intros pre acc; simpl.
  - reflexivity.
  - rewrite JsFacts.get_of_nat, nth_error_app2 by lia.
    rewrite Nat.sub_diag. simpl.
    specialize (IH (pre ++ [x]) (bump acc x)).
    rewrite <- app_assoc in IH. simpl in IH.
    rewrite length_app in IH. simpl in IH.
    rewrite Nat.add_1_r in IH. exact IH.
Qed.

Lemma maxDepthLoop_fold (depthColumn : list Z) :
  maxDepthLoop depthColumn = fold_left bump depthColumn 0.
Proof. exact (indexed_fold_ext [] depthColumn 0). Qed.

Lemma fold_bump_ge_acc (l : list Z) (acc : Z) : acc <= fold_left bump l acc.
Proof.
  revert acc. induction l as [|x l IH]; intros acc; simpl; [lia|].
  specialize (IH (bump acc x)). pose proof (bump_max acc x) as B. lia.
Qed.

Lemma fold_bump_upper (l : list Z) (acc d : Z) :
  In d l -> d <= fold_left bump l acc.
Proof.
  revert acc. induction l as [|x l IH]; intros acc; simpl; [tauto|].
  intros [->|Hin].
  - pose proof (fold_bump_ge_acc l (bump acc d)) as H.
    pose proof (bump_max acc d) as B. lia.
  - now apply IH.
Qed.

Lemma fold_bump_attained (l : list Z) (acc : Z) :
  fold_left bump l acc = acc \/ In (fold_left bump l acc) l.
Proof.
  revert acc. induction l as [|x l IH]; intros acc; simpl; [now left|].
  destruct (IH (bump acc x)) as [E|Hin].
  - rewrite E. unfold bump. destruct (x >? acc); auto.
  - auto.
Qed.

Example heightFunction_runs :
  map (_heightFunction exampleProps) [0; 1; 2; 3; 4; -1]
  = [Js.Number 2; Js.Null; Js.Number 1; Js.Undefined; Js.Undefined;
     Js.Undefined].
Proof. reflexivity. Qed.

Example maxDepthLoop_runs : maxValue (render exampleProps) = 2.
Proof. reflexivity. Qed.

(** Without the depth column being non-negative the loop's initial [0]
    shows through. *)
Example maxDepthLoop_negative_column : maxDepthLoop [-3; -1] = 0.
Proof. reflexivity. Qed.

(** C7: the height function answers [null] exactly for the samples whose
    entry in [sampleCallNodes] is [null]; for a sample with a call node it
    answers what the depth column holds for that call node, which is the
    recorded depth whenever the call node is in the table. *)
Theorem heightFunction_null_iff_sample_null (props : Props) (sampleIndex : Z) :
  (_heightFunction props sampleIndex = Js.Null <->
   Js.get (sampleCallNodes props) sampleIndex = Some None)
  /\ (forall callNodeIndex,
        Js.get (sampleCallNodes props) sampleIndex = Some (Some callNodeIndex) ->
        _heightFunction props sampleIndex
        = Js.ofRead (Js.get (depth (callNodeTable props)) callNodeIndex))
  /\ (forall callNodeIndex d,
        Js.get (sampleCallNodes props) sampleIndex = Some (Some callNodeIndex) ->
        Js.get (depth (callNodeTable props)) callNodeIndex = Some d ->
        _heightFunction props sampleIndex = Js.Number d).
Proof.
  unfold _heightFunction.
  destruct (Js.get (sampleCallNodes props) sampleIndex) as [[c|]|] eqn:E.
  - repeat split.
    + destruct (Js.get (depth (callNodeTable props)) c); discriminate.
    + discriminate.
    + intros c' H. now inversion H.
    + intros c' d H Hd. inversion H; subst. now rewrite Hd.
  - repeat split; intros; try reflexivity; discriminate.
  - repeat split; intros; discriminate.
Qed.

(** The value of the loop for any column: the largest of [0] and the
    entries. *)
Lemma render_maxValue_fold (props : Props) :
  maxValue (render props)
  = fold_left Z.max (depth (callNodeTable props)) 0.
Proof.
  simpl. rewrite maxDepthLoop_fold. generalize 0.
  induction (depth (callNodeTable props)) as [|x l IH]; intros acc; simpl.
  - reflexivity.
  - rewrite bump_max. apply IH.
Qed.

(** C9: for a depth column (its entries are depths, none negative) the
    [maxValue] given to [ThreadHeightGraph] is the maximum entry: it bounds
    every entry and, when the column is not empty, is one of them; for the
    empty column it is [0]. *)
Theorem render_maxValue_is_max_depth (props : Props) :
  Forall (fun d => 0 <= d) (depth (callNodeTable props)) ->
  (forall d, In d (depth (callNodeTable props)) -> d <= maxValue (render props))
  /\ (depth (callNodeTable props) <> [] ->
      In (maxValue (render props)) (depth (callNodeTable props)))
  /\ (depth (callNodeTable props) = [] -> maxValue (render props) = 0).
Proof.
  intros Hnonneg. simpl. rewrite maxDepthLoop_fold.
  set (col := depth (callNodeTable props)) in *.
  split; [|split].
  - intros d Hin. now apply fold_bump_upper.
  - intros Hne. destruct (fold_bump_attained col 0) as [E|Hin]; [|exact Hin].
    destruct col as [|x col']; [congruence|].
    assert (Hx : x <= fold_left bump (x :: col') 0)
      by (apply fold_bump_upper; now left).
    assert (0 <= x) by now inversion Hnonneg.
    rewrite E in *. left. lia.
  - intros ->. reflexivity.
Qed.

Lemma render_maxValue_is_max_depth_witness :
  Forall (fun d => 0 <= d) (depth (callNodeTable exampleProps))
  /\ (forall d, In d (depth (callNodeTable exampleProps)) ->
        d <= maxValue (render exampleProps))
  /\ (depth (callNodeTable exampleProps) <> [] ->
      In (maxValue (render exampleProps)) (depth (callNodeTable exampleProps)))
  /\ (depth (callNodeTable exampleProps) = [] ->
      maxValue (render exampleProps) = 0).
Proof.
  assert (H : Forall (fun d => 0 <= d) (depth (callNodeTable exampleProps))).
  { simpl. repeat constructor; discriminate. }
  split; [exact H|].
  exact (render_maxValue_is_max_depth exampleProps H).
Defined.

End StackGraphFacts.

(** ** The flame graph component *)

Module FlameGraphFacts.

Import FlameGraph.

Section Properties.

Context {ThreadsKey BottomBoxInfo CallNodePath : Type}.
Variable getCallNodePathFromIndex : Js.Value -> CallNodeTable -> CallNodePath.
Context {Store : Type}.
Variable reduce : Store -> @Action ThreadsKey BottomBoxInfo CallNodePath -> Store.

(** *** The scan loop *)

(** One iteration of the loop. *)
Lemma scanRow_step (fuel : nat) (row : TimingRow) (direction columnIndex : Z) :
  scanRow (S fuel) row direction columnIndex
  = if wideAt row (columnIndex + direction)
    then Some (Js.get (callNode row) (columnIndex + direction))
    else
      match Js.get (callNode row) (columnIndex + direction) with
      | Some _ => scanRow fuel row direction (columnIndex + direction)
      | None => Some None
      end.
Proof. reflexivity. Qed.

(** The loop leaves at the first column that is wide or has no call node. *)
Lemma scanRow_exit (row : TimingRow) (direction : Z) (k : nat) :
  forall (fuel : nat) (columnIndex : Z),
    (1 <= k <= fuel)%nat ->
    (forall j : nat, (1 <= j < k)%nat ->
       wideAt row (columnIndex + Z.of_nat j * direction) = false /\
       Js.get (callNode row) (columnIndex + Z.of_nat j * direction) <> None) ->
    (wideAt row (columnIndex + Z.of_nat k * direction) = true \/
     Js.get (callNode row) (columnIndex + Z.of_nat k * direction) = None) ->
    scanRow fuel row direction columnIndex
    = Some (if wideAt row (columnIndex + Z.of_nat k * direction)
            then Js.get (callNode row) (columnIndex + Z.of_nat k * direction)
            else None).
Proof.
  induction k as [|k IH]; intros fuel columnIndex Hk Hbefore Hexit; [lia|].
  destruct fuel as [|fuel]; [lia|]. rewrite scanRow_step.
  assert (E1 : columnIndex + Z.of_nat 1 * direction = columnIndex + direction)
    by lia.
  destruct (Nat.eq_dec k 0) as [->|Hk0].
  - rewrite E1 in *.
    destruct (wideAt row (columnIndex + direction)); [reflexivity|].
    destruct Hexit as [H|H]; [discriminate|]. now rewrite H.
  - destruct (Hbefore 1%nat) as [Hnarrow Hsome]; [lia|].
    rewrite E1 in Hnarrow, Hsome. rewrite Hnarrow.
    destruct (Js.get (callNode row) (columnIndex + direction)) as [cn|];
      [|congruence].
    assert (Eshift : forall j : nat,
               columnIndex + Z.of_nat (S j) * direction
               = columnIndex + direction + Z.of_nat j * direction) by (intros; lia).
    rewrite Eshift in *.
    apply IH; [lia| |exact Hexit].
    intros j Hj. rewrite <- Eshift. apply Hbefore. lia.
Qed.

(** More fuel does not change a result. *)
Lemma scanRow_more_fuel (row : TimingRow) (direction : Z) (fuel fuel' : nat) :
  forall (columnIndex : Z) (r : option Z),
    (fuel <= fuel')%nat ->
    scanRow fuel row direction columnIndex = Some r ->
    scanRow fuel' row direction columnIndex = Some r.
Proof.
  revert fuel'. induction fuel as [|fuel IH]; intros fuel' columnIndex r Hle;
    [discriminate|].
  destruct fuel' as [|fuel']; [lia|]. simpl.
  destruct (wideAt row (columnIndex + direction)); [trivial|].
  destruct (Js.get (callNode row) (columnIndex + direction)); [|trivial].
  apply IH. lia.
Qed.

(** Going right from a column in [-1 .. length-1], the loop is out after
    [length - columnIndex] iterations. *)
Lemma scanRow_right_terminates (row : TimingRow) (fuel : nat) :
  forall columnIndex : Z,
    -1 <= columnIndex < Z.of_nat (length (callNode row)) ->
    Z.of_nat (length (callNode row)) - columnIndex <= Z.of_nat fuel ->
    exists r, scanRow fuel row 1 columnIndex = Some r.
Proof.
  induction fuel as [|fuel IH]; intros columnIndex Hc Hfuel; [lia|]. simpl.
  destruct (wideAt row (columnIndex + 1)); [eauto|].
  destruct (Js.get (callNode row) (columnIndex + 1)) eqn:E; [|eauto].
  apply JsFacts.get_Some_range in E. apply IH; lia.
Qed.

(** Going left, after [columnIndex + 1] iterations (one when the start is
    [-1]). *)
Lemma scanRow_left_terminates (row : TimingRow) (fuel : nat) :
  forall columnIndex : Z,
    -1 <= columnIndex ->
    Z.max 1 (columnIndex + 1) <= Z.of_nat fuel ->
    exists r, scanRow fuel row (-1) columnIndex = Some r.
Proof.
  induction fuel as [|fuel IH]; intros columnIndex Hc Hfuel; [lia|]. simpl.
  destruct (wideAt row (columnIndex + -1)); [eauto|].
  destruct (Js.get (callNode row) (columnIndex + -1)) eqn:E; [|eauto].
  apply JsFacts.get_Some_range in E. apply IH; lia.
Qed.

(** A call node the loop returns sits in a wide column ahead of the start. *)
Lemma scanRow_result_wide (row : TimingRow) (direction : Z) (fuel : nat) :
  forall (columnIndex n : Z),
    scanRow fuel row direction columnIndex = Some (Some n) ->
    exists k : nat,
      (1 <= k <= fuel)%nat /\
      Js.get (callNode row) (columnIndex + Z.of_nat k * direction) = Some n /\
      wideAt row (columnIndex + Z.of_nat k * direction) = true.
Proof.
  induction fuel as [|fuel IH]; intros columnIndex n H; [discriminate|].
  rewrite scanRow_step in H.
  destruct (wideAt row (columnIndex + direction)) eqn:W.
  - exists 1%nat. inversion H as [E].
    replace (columnIndex + Z.of_nat 1 * direction)
      with (columnIndex + direction) by lia.
    repeat split; [lia|lia|exact W].
  - destruct (Js.get (callNode row) (columnIndex + direction)); [|discriminate].
    destruct (IH _ _ H) as (k & Hk & Hget & Hwide).
    exists (S k).
    replace (columnIndex + Z.of_nat (S k) * direction)
      with (columnIndex + direction + Z.of_nat k * direction) by lia.
    repeat split; [lia|lia|exact Hget|exact Hwide].
Qed.

(** The loop in either direction, from what [indexOf] answered. *)
Lemma scanRow_terminates (row : TimingRow) (direction columnIndex : Z)
  (fuel : nat) :
  direction = 1 \/ direction = -1 ->
  -1 <= columnIndex < Z.of_nat (length (callNode row)) ->
  (S (length (callNode row)) <= fuel)%nat \/
  (0 <= columnIndex /\ (length (callNode row) <= fuel)%nat) ->
  exists r, scanRow fuel row direction columnIndex = Some r.
Proof.
  intros [->| ->] Hc Hfuel.
  - apply scanRow_right_terminates; lia.
  - apply scanRow_left_terminates; lia.
Qed.

(** The first wide column ahead that holds a call node is where the loop
    stops. *)
Lemma scanRow_finds (row : TimingRow) (direction c col n : Z) (fuel : nat) :
  direction = 1 \/ direction = -1 ->
  -1 <= c < Z.of_nat (length (callNode row)) ->
  (S (length (callNode row)) <= fuel)%nat ->
  ahead direction c col ->
  Js.get (callNode row) col = Some n ->
  wideAt row col = true ->
  (forall col', ahead direction c col' -> ahead direction col' col ->
                wideAt row col' = false) ->
  scanRow fuel row direction c = Some (Some n).
Proof.
  intros Hdir Hc Hfuel Hahead Hget Hwide Hbefore.
  pose proof (JsFacts.get_Some_range _ _ _ _ Hget) as Hcol.
  unfold ahead in *.
  set (k := Z.to_nat ((col - c) * direction)).
  assert (Ecol : c + Z.of_nat k * direction = col)
    by (subst k; destruct Hdir as [-> | ->]; lia).
  rewrite (scanRow_exit row direction k fuel c).
  - rewrite Ecol, Hwide, Hget. reflexivity.
  - subst k. destruct Hdir as [-> | ->]; lia.
  - intros j Hj.
    assert (Hj' : 0 < (c + Z.of_nat j * direction - c) * direction
                  /\ 0 < (col - (c + Z.of_nat j * direction)) * direction
                  /\ 0 <= c + Z.of_nat j * direction
                       < Z.of_nat (length (callNode row)))
      by (subst k; destruct Hdir as [-> | ->]; lia).
    destruct Hj' as (H1 & H2 & H3). split.
    + now apply Hbefore.
    + destruct (JsFacts.get_in_range _ (callNode row) _ H3) as [x Hx]. congruence.
  - left. now rewrite Ecol.
Qed.

(** With only narrow boxes ahead, the loop runs off the row. *)
Lemma scanRow_runs_off (row : TimingRow) (direction c : Z) (fuel : nat) :
  direction = 1 \/ direction = -1 ->
  -1 <= c < Z.of_nat (length (callNode row)) ->
  (S (length (callNode row)) <= fuel)%nat ->
  (forall col, ahead direction c col -> Js.get (callNode row) col <> None ->
               wideAt row col = false) ->
  scanRow fuel row direction c = Some None.
Proof.
  intros Hdir Hc Hfuel Hnarrow. unfold ahead in *.
  set (len := Z.of_nat (length (callNode row))) in *.
  set (stop := if direction =? 1 then len else Z.min (-1) (c - 1)).
  set (k := Z.to_nat ((stop - c) * direction)).
  assert (Estop : c + Z.of_nat k * direction = stop)
    by (subst k stop; destruct Hdir as [-> | ->]; simpl; lia).
  assert (Hout : Js.get (callNode row) stop = None).
  { apply JsFacts.get_None_iff. fold len. subst stop.
    destruct Hdir as [-> | ->]; simpl; lia. }
  rewrite (scanRow_exit row direction k fuel c).
  - rewrite Estop, Hout. now destruct (wideAt row stop).
  - subst k stop. destruct Hdir as [-> | ->]; simpl; lia.
  - intros j Hj.
    assert (Hj' : 0 < (c + Z.of_nat j * direction - c) * direction
                  /\ 0 <= c + Z.of_nat j * direction < len)
      by (subst k stop; destruct Hdir as [-> | ->]; simpl in *; lia).
    destruct Hj' as (H1 & H3).
    destruct (JsFacts.get_in_range _ (callNode row) _ H3) as [x Hx].
    split; [apply Hnarrow; [exact H1|congruence] | congruence].
  - right. now rewrite Estop.
Qed.

(** *** The methods on top of the loop *)

Lemma indexOf_bounds (row : TimingRow) (callNodeIndex : Z) :
  -1 <= Js.indexOf (callNode row) callNodeIndex
     < Z.of_nat (length (callNode row)).
Proof. apply JsFacts.indexOf_range. Qed.

Lemma nextSelectableInRow_finds (props : @Props ThreadsKey BottomBoxInfo) (start direction : Z)
  (row : TimingRow) (col n : Z) :
  direction = 1 \/ direction = -1 ->
  rowOf props start = Some row ->
  ahead direction (Js.indexOf (callNode row) start) col ->
  Js.get (callNode row) col = Some n ->
  wideAt row col = true ->
  (forall col', ahead direction (Js.indexOf (callNode row) start) col' ->
                ahead direction col' col -> wideAt row col' = false) ->
  _nextSelectableInRow props start direction = Ok (Some n).
Proof.
  intros Hdir Hrow Hahead Hget Hwide Hbefore.
  unfold _nextSelectableInRow. rewrite Hrow.
  rewrite (scanRow_finds row direction _ col n); auto using indexOf_bounds.
Qed.

Lemma nextSelectableInRow_runs_off (props : @Props ThreadsKey BottomBoxInfo) (start direction : Z)
  (row : TimingRow) :
  direction = 1 \/ direction = -1 ->
  rowOf props start = Some row ->
  (forall col, ahead direction (Js.indexOf (callNode row) start) col ->
               Js.get (callNode row) col <> None -> wideAt row col = false) ->
  _nextSelectableInRow props start direction = Ok None.
Proof.
  intros Hdir Hrow Hnarrow.
  unfold _nextSelectableInRow. rewrite Hrow.
  rewrite (scanRow_runs_off row direction); auto using indexOf_bounds.
Qed.

Lemma includes_arrowKeys (k : string) :
  includes arrowKeys k = true <-> In k arrowKeys.
Proof.
  unfold includes. rewrite existsb_exists. split.
  - intros (x & Hin & E). apply String.eqb_eq in E. now subst.
  - intros Hin. exists k. split; [exact Hin|apply String.eqb_refl].
Qed.

(** The handler on the left and right arrows, once a node is selected. *)
Lemma handleKeyDown_left_right (props : @Props ThreadsKey BottomBoxInfo) (event : KeyboardEvent)
  (selected : Z) :
  key event = "ArrowLeft"%string \/ key event = "ArrowRight"%string ->
  selectedCallNodeIndex props = Some selected ->
  _handleKeyDown getCallNodePathFromIndex props event
  = match
      _nextSelectableInRow props selected
        (if (key event =? "ArrowLeft")%string then -1 else 1)
    with
    | Ok (Some callNodeIndex) =>
        ([selectCallNode getCallNodePathFromIndex props (Js.Number callNodeIndex)], Ok tt)
    | Ok None => ([], Ok tt)
    | ThrowTypeError => ([], ThrowTypeError)
    | OutOfFuel => ([], OutOfFuel)
    end.
Proof.
  intros [H|H] Hsel; unfold _handleKeyDown; rewrite H, Hsel; reflexivity.
Qed.

(** C1: on ArrowLeft (direction -1) and ArrowRight (direction +1) with a
    selected node whose depth row exists, the handler starts from the column
    [indexOf] finds for the selected node (a left-to-right scan: the node's
    column when it is in the row) and selects the call node of the first
    column ahead, in the direction of the key, whose box is wider than
    [SELECTABLE_THRESHOLD]; when no column of the row ahead is that wide it
    dispatches nothing and the store is left as it was. *)
Theorem arrow_left_right_selects_next_wide_box (props : @Props ThreadsKey BottomBoxInfo)
  (event : KeyboardEvent) (selected : Z) (row : TimingRow) :
  key event = "ArrowLeft"%string \/ key event = "ArrowRight"%string ->
  selectedCallNodeIndex props = Some selected ->
  rowOf props selected = Some row ->
  let direction := if (key event =? "ArrowLeft")%string then -1 else 1 in
  let c := Js.indexOf (callNode row) selected in
  (key event = "ArrowLeft"%string -> direction = -1)
  /\ (key event = "ArrowRight"%string -> direction = 1)
  /\ (In selected (callNode row) -> Js.get (callNode row) c = Some selected)
  /\ (forall col n,
        ahead direction c col ->
        Js.get (callNode row) col = Some n ->
        wideAt row col = true ->
        (forall col', ahead direction c col' -> ahead direction col' col ->
                      wideAt row col' = false) ->
        _handleKeyDown getCallNodePathFromIndex props event
        = ([Dispatch
              (changeSelectedCallNode (threadsKey props)
                 (getCallNodePathFromIndex (Js.Number n) (callNodeTable props)))],
           Ok tt))
  /\ ((forall col, ahead direction c col ->
                   Js.get (callNode row) col <> None -> wideAt row col = false) ->
      _handleKeyDown getCallNodePathFromIndex props event = ([], Ok tt)
      /\ forall store,
           storeAfter reduce store (fst (_handleKeyDown getCallNodePathFromIndex props event)) = store).
Proof.
  intros Hkey Hsel Hrow direction c.
  assert (Hdir : direction = 1 \/ direction = -1)
    by (subst direction; destruct Hkey as [-> | ->]; auto).
  split; [|split; [|split; [|split]]].
  - intros E. subst direction. now rewrite E.
  - intros E. subst direction. now rewrite E.
  - apply JsFacts.indexOf_found.
  - intros col n Hahead Hget Hwide Hbefore.
    rewrite (handleKeyDown_left_right props event selected Hkey Hsel).
    fold direction.
    now rewrite (nextSelectableInRow_finds props selected direction row col n).
  - intros Hnarrow.
    rewrite (handleKeyDown_left_right props event selected Hkey Hsel).
    fold direction.
    rewrite (nextSelectableInRow_runs_off props selected direction row);
      auto.
Qed.

(** C10, as the code has it: [_nextSelectableInRow] always terminates for a
    direction of -1 or 1. When the row of the starting node's depth is
    missing it throws before the loop. Otherwise the loop is out within
    [length + 1] iterations of the row's [callNode] array, and within
    [length] when the starting node is in the row; it leaves with
    [undefined] or with the call node of a wide column, and the method
    returns that. *)
Theorem nextSelectableInRow_terminates (props : @Props ThreadsKey BottomBoxInfo)
  (startingCallNodeIndex direction : Z) :
  direction = 1 \/ direction = -1 ->
  match rowOf props startingCallNodeIndex with
  | None =>
      _nextSelectableInRow props startingCallNodeIndex direction
      = ThrowTypeError
  | Some row =>
      let c := Js.indexOf (callNode row) startingCallNodeIndex in
      exists r : option Z,
        (forall fuel, (S (length (callNode row)) <= fuel)%nat ->
                      scanRow fuel row direction c = Some r)
        /\ (In startingCallNodeIndex (callNode row) ->
            forall fuel, (length (callNode row) <= fuel)%nat ->
                         scanRow fuel row direction c = Some r)
        /\ _nextSelectableInRow props startingCallNodeIndex direction = Ok r
        /\ (r = None \/
            exists col n, r = Some n /\ ahead direction c col /\
                          Js.get (callNode row) col = Some n /\
                          wideAt row col = true)
  end.
Proof.
  intros Hdir. unfold _nextSelectableInRow.
  destruct (rowOf props startingCallNodeIndex) as [row|]; [|reflexivity].
  set (c := Js.indexOf (callNode row) startingCallNodeIndex).
  pose proof (indexOf_bounds row startingCallNodeIndex) as Hc. fold c in Hc.
  destruct (scanRow_terminates row direction c (S (length (callNode row))) Hdir Hc)
    as [r Hr]; [left; lia|].
  exists r. split; [|split; [|split]].
  - intros fuel Hfuel. now apply (scanRow_more_fuel row direction _ fuel c r) in Hr.
  - intros Hin fuel Hfuel.
    assert (H0 : 0 <= c).
    { pose proof (JsFacts.indexOf_found _ _ Hin) as Hget.
      apply JsFacts.get_Some_range in Hget. subst c. lia. }
    destruct (scanRow_terminates row direction c (length (callNode row)) Hdir Hc)
      as [r' Hr']; [right; lia|].
    pose proof (scanRow_more_fuel row direction _ (S (length (callNode row))) c r'
                  (Nat.le_succ_diag_r _) Hr') as Hr''.
    rewrite Hr in Hr''. inversion Hr''; subst r'.
    now apply (scanRow_more_fuel row direction _ fuel c r) in Hr'.
  - now rewrite Hr.
  - destruct r as [n|]; [right|now left].
    destruct (scanRow_result_wide row direction _ c n Hr) as (k & Hk & Hget & Hw).
    exists (c + Z.of_nat k * direction), n.
    repeat split; auto. unfold ahead. destruct Hdir as [-> | ->]; lia.
Qed.

(** A column left of the row holds no box: its width is NaN. *)
Lemma wideAt_negative (row : TimingRow) (columnIndex : Z) :
  columnIndex < 0 -> wideAt row columnIndex = false.
Proof.
  intros H. unfold wideAt, Js.get.
  destruct (Z.ltb_spec columnIndex 0); [reflexivity|lia].
Qed.

Lemma indexOfFrom_absent (a : list Z) (x i : Z) :
  ~ In x a -> Js.indexOfFrom a x i = -1.
Proof.
  revert i. induction a as [|y a IH]; intros i Hnot; [reflexivity|].
  simpl. destruct (Z.eqb_spec y x) as [->|Hne].
  - exfalso. apply Hnot. now left.
  - apply IH. intros Hin. apply Hnot. now right.
Qed.

(** A call node that has no box in its row is not wide enough. *)
Lemma wideEnough_absent (props : @Props ThreadsKey BottomBoxInfo) (callNodeIndex : Z) (row : TimingRow) :
  rowOf props callNodeIndex = Some row ->
  ~ In callNodeIndex (callNode row) ->
  _wideEnough props callNodeIndex = Ok false.
Proof.
  intros Hrow Hnot. unfold _wideEnough. rewrite Hrow.
  unfold Js.indexOf. rewrite indexOfFrom_absent by exact Hnot.
  now rewrite wideAt_negative.
Qed.

(** C2: on ArrowUp with a selected node, the handler looks at the first of
    the call tree's children of that node and selects it exactly when it
    exists and its box (in the row of its depth, at the column [indexOf]
    finds) is wider than [SELECTABLE_THRESHOLD]; otherwise nothing is
    dispatched and the store is left as it was. With the children sorted by
    an order [R] (total time, descending), the first one is [R]-before every
    other child. *)
Theorem arrow_up_selects_first_child_if_wide (props : @Props ThreadsKey BottomBoxInfo)
  (event : KeyboardEvent) (selected : Z) :
  key event = "ArrowUp"%string ->
  selectedCallNodeIndex props = Some selected ->
  (forall child rest row,
     getChildren (callTree props) selected = child :: rest ->
     rowOf props child = Some row ->
     wideAt row (Js.indexOf (callNode row) child) = true ->
     _handleKeyDown getCallNodePathFromIndex props event
     = ([Dispatch
           (changeSelectedCallNode (threadsKey props)
              (getCallNodePathFromIndex (Js.Number child) (callNodeTable props)))],
        Ok tt))
  /\ (~ (exists child rest row,
           getChildren (callTree props) selected = child :: rest /\
           rowOf props child = Some row /\
           wideAt row (Js.indexOf (callNode row) child) = true) ->
      fst (_handleKeyDown getCallNodePathFromIndex props event) = []
      /\ forall store,
           storeAfter reduce store (fst (_handleKeyDown getCallNodePathFromIndex props event)) = store)
  /\ (getChildren (callTree props) selected = [] ->
      _handleKeyDown getCallNodePathFromIndex props event = ([], Ok tt))
  /\ (forall (R : Z -> Z -> Prop) child rest,
        StronglySorted R (getChildren (callTree props) selected) ->
        getChildren (callTree props) selected = child :: rest ->
        Forall (R child) rest).
Proof.
  intros Hkey Hsel.
  assert (E : _handleKeyDown getCallNodePathFromIndex props event
              = match getChildren (callTree props) selected with
                | [] => ([], Ok tt)
                | callNodeIndex :: _ =>
                    match _wideEnough props callNodeIndex with
                    | Ok true =>
                        ([selectCallNode getCallNodePathFromIndex props (Js.Number callNodeIndex)], Ok tt)
                    | Ok false => ([], Ok tt)
                    | ThrowTypeError => ([], ThrowTypeError)
                    | OutOfFuel => ([], OutOfFuel)
                    end
                end)
    by (unfold _handleKeyDown; rewrite Hkey, Hsel; reflexivity).
  rewrite E. clear E. unfold _wideEnough.
  split; [|split; [|split]].
  - intros child rest row Hch Hrow Hwide. now rewrite Hch, Hrow, Hwide.
  - intros Hnone.
    destruct (getChildren (callTree props) selected) as [|child rest];
      [now split|].
    destruct (rowOf props child) as [row|] eqn:Hrow; [|now split].
    destruct (wideAt row (Js.indexOf (callNode row) child)) eqn:W; [|now split].
    exfalso. apply Hnone. exists child, rest, row. auto.
  - intros ->. reflexivity.
  - intros R child rest Hsorted Hch. rewrite Hch in Hsorted.
    now inversion Hsorted.
Qed.

(** C3: on ArrowDown with a selected node of the table, the handler reads
    the node's [prefix] entry and selects that parent exactly when the entry
    is not -1; for a root (entry -1) nothing is dispatched and the store is
    left as it was. *)
Theorem arrow_down_selects_parent_unless_root (props : @Props ThreadsKey BottomBoxInfo)
  (event : KeyboardEvent) (selected parent : Z) :
  key event = "ArrowDown"%string ->
  selectedCallNodeIndex props = Some selected ->
  Js.get (prefix (callNodeTable props)) selected = Some parent ->
  (parent <> -1 ->
   _handleKeyDown getCallNodePathFromIndex props event
   = ([Dispatch
         (changeSelectedCallNode (threadsKey props)
            (getCallNodePathFromIndex (Js.Number parent) (callNodeTable props)))],
      Ok tt))
  /\ (parent = -1 ->
      _handleKeyDown getCallNodePathFromIndex props event = ([], Ok tt)
      /\ forall store,
           storeAfter reduce store (fst (_handleKeyDown getCallNodePathFromIndex props event)) = store)
  /\ (fst (_handleKeyDown getCallNodePathFromIndex props event) <> [] <-> parent <> -1).
Proof.
  intros Hkey Hsel Hparent.
  assert (E : _handleKeyDown getCallNodePathFromIndex props event
              = match Js.get (prefix (callNodeTable props)) selected with
                | Some (-1) => ([], Ok tt)
                | p => ([selectCallNode getCallNodePathFromIndex props (Js.ofRead p)], Ok tt)
                end)
    by (unfold _handleKeyDown; rewrite Hkey, Hsel; reflexivity).
  rewrite E, Hparent. clear E.
  destruct (Z.eq_dec parent (-1)) as [->|Hne].
  - split; [|split].
    + intros H. now contradiction H.
    + intros _. now split.
    + simpl. split; intros H; now contradiction H.
  - assert (E : match Some parent with
                | Some (-1) => (@nil (@Effect ThreadsKey BottomBoxInfo CallNodePath), Ok tt)
                | p => ([selectCallNode getCallNodePathFromIndex props (Js.ofRead p)], Ok tt)
                end = ([selectCallNode getCallNodePathFromIndex props (Js.Number parent)], Ok tt))
      by (destruct parent as [|q|[q|q|]]; try reflexivity; now contradiction Hne).
    rewrite E. split; [|split].
    + reflexivity.
    + intros H. contradiction.
    + simpl. split; [intros _; exact Hne|discriminate].
Qed.

(** C4, as the code has it: the unknown-key message sits in the [default]
    of the switch over the four arrow keys, which no key reaches; whatever
    the key and the selection, the handler logs no error. *)
Theorem unknown_key_branch_unreachable (props : @Props ThreadsKey BottomBoxInfo) (event : KeyboardEvent) :
  loggedErrors (fst (_handleKeyDown getCallNodePathFromIndex props event)) = [].
Proof.
  unfold _handleKeyDown.
  destruct (includes arrowKeys (key event)) eqn:Hinc.
  - apply includes_arrowKeys in Hinc. simpl in Hinc.
    destruct (selectedCallNodeIndex props) as [selected|]; [|reflexivity].
    destruct Hinc as [H|[H|[H|[H|[]]]]]; rewrite <- H; cbv beta iota.
    + change ("ArrowDown" =? "ArrowDown")%string with true. cbv iota.
      destruct (Js.get (prefix (callNodeTable props)) selected)
        as [[|q|[q|q|]]|]; reflexivity.
    + change ("ArrowUp" =? "ArrowDown")%string with false.
      change ("ArrowUp" =? "ArrowUp")%string with true. cbv iota.
      destruct (getChildren (callTree props) selected) as [|child rest];
        [reflexivity|].
      destruct (_wideEnough props child) as [[|]| |]; reflexivity.
    + change ("ArrowLeft" =? "ArrowDown")%string with false.
      change ("ArrowLeft" =? "ArrowUp")%string with false.
      change ("ArrowLeft" =? "ArrowLeft")%string with true. cbv iota.
      change (true || ("ArrowLeft" =? "ArrowRight")%string) with true. cbv iota.
      destruct (_nextSelectableInRow props selected (-1)) as [[n|]| |];
        reflexivity.
    + change ("ArrowRight" =? "ArrowDown")%string with false.
      change ("ArrowRight" =? "ArrowUp")%string with false.
      change ("ArrowRight" =? "ArrowLeft")%string with false. cbv iota.
      change (false || ("ArrowRight" =? "ArrowRight")%string) with true.
      cbv iota.
      destruct (_nextSelectableInRow props selected 1) as [[n|]| |];
        reflexivity.
  - destruct (rightClickedCallNodeIndex props) as [r|];
      [|destruct (selectedCallNodeIndex props) as [n|]; [|reflexivity]];
      destruct (key event =? "Enter")%string; reflexivity.
Qed.

(** C5: on a key that is not an arrow key, with neither a selected nor a
    right-clicked node the handler dispatches nothing, logs nothing and
    leaves the store as it was; a right-clicked node is the target whatever
    is selected, and the selected node is the target only when nothing is
    right-clicked. *)
Theorem non_arrow_key_null_selection_guard (props : @Props ThreadsKey BottomBoxInfo)
  (event : KeyboardEvent) :
  ~ In (key event) arrowKeys ->
  let target nodeIndex :=
    (if (key event =? "Enter")%string
     then [Dispatch
             (updateBottomBoxContentsAndMaybeOpen "flame-graph"
                (getBottomBoxInfoForCallNode (callTree props) nodeIndex))]
     else [Dispatch
             (handleCallNodeTransformShortcut event (threadsKey props) nodeIndex)],
     Ok tt) in
  (selectedCallNodeIndex props = None ->
   rightClickedCallNodeIndex props = None ->
   _handleKeyDown getCallNodePathFromIndex props event = ([], Ok tt)
   /\ forall store,
        storeAfter reduce store (fst (_handleKeyDown getCallNodePathFromIndex props event)) = store)
  /\ (forall rightClicked,
        rightClickedCallNodeIndex props = Some rightClicked ->
        _handleKeyDown getCallNodePathFromIndex props event = target rightClicked)
  /\ (forall selected,
        rightClickedCallNodeIndex props = None ->
        selectedCallNodeIndex props = Some selected ->
        _handleKeyDown getCallNodePathFromIndex props event = target selected).
Proof.
  intros Hkey target.
  assert (Hinc : includes arrowKeys (key event) = false).
  { destruct (includes arrowKeys (key event)) eqn:E; [|reflexivity].
    apply includes_arrowKeys in E. contradiction. }
  unfold _handleKeyDown. rewrite Hinc. subst target. cbv beta.
  split; [|split].
  - intros -> ->. now split.
  - intros r ->. unfold _onCallNodeEnterOrDoubleClick.
    now destruct (key event =? "Enter")%string.
  - intros n -> ->. unfold _onCallNodeEnterOrDoubleClick.
    now destruct (key event =? "Enter")%string.
Qed.

(** C6: Enter and double click both go through
    [_onCallNodeEnterOrDoubleClick], which for a call node emits exactly one
    action, [updateBottomBoxContentsAndMaybeOpen] with source 'flame-graph'
    and the call tree's bottom-box info for that node, and for [null] emits
    nothing. On Enter the node is the right-clicked one, else the selected
    one. *)
Theorem enter_or_double_click_opens_bottom_box (props : @Props ThreadsKey BottomBoxInfo) :
  (forall callNodeIndex,
     _onCallNodeEnterOrDoubleClick (CallNodePath := CallNodePath) props (Some callNodeIndex)
     = [Dispatch
          (updateBottomBoxContentsAndMaybeOpen "flame-graph"
             (getBottomBoxInfoForCallNode (callTree props) callNodeIndex))])
  /\ _onCallNodeEnterOrDoubleClick (CallNodePath := CallNodePath) props None = []
  /\ _handleKeyDown getCallNodePathFromIndex props {| key := "Enter" |}
     = (_onCallNodeEnterOrDoubleClick (CallNodePath := CallNodePath) props
          (match rightClickedCallNodeIndex props with
           | Some rightClicked => Some rightClicked
           | None => selectedCallNodeIndex props
           end),
        Ok tt).
Proof.
  split; [reflexivity|split; [reflexivity|]].
  unfold _handleKeyDown.
  change (includes arrowKeys (key {| key := "Enter" |})) with false.
  cbv beta iota.
  destruct (rightClickedCallNodeIndex props) as [r|];
    [|destruct (selectedCallNodeIndex props) as [n|]]; reflexivity.
Qed.

(** C8: on any of the four arrow keys with no selected node, the handler
    dispatches one selection change, to the path of call node 0, and does
    nothing else. *)
Theorem arrow_key_without_selection_selects_root (props : @Props ThreadsKey BottomBoxInfo)
  (event : KeyboardEvent) :
  In (key event) arrowKeys ->
  selectedCallNodeIndex props = None ->
  _handleKeyDown getCallNodePathFromIndex props event
  = ([Dispatch
        (changeSelectedCallNode (threadsKey props)
           (getCallNodePathFromIndex (Js.Number 0) (callNodeTable props)))],
     Ok tt).
Proof.
  intros Hkey Hsel. apply includes_arrowKeys in Hkey.
  unfold _handleKeyDown. now rewrite Hkey, Hsel.
Qed.

End Properties.

(** *** The handler run on the example profile *)

Example arrow_right_skips_narrow_box :
  _handleKeyDown examplePath (exampleProps (Some 1) None) (keyEvent "ArrowRight")
  = ([Dispatch (changeSelectedCallNode "thread-0"%string [0; 3])], Ok tt).
Proof. reflexivity. Qed.

Example arrow_left_from_first_column :
  _handleKeyDown examplePath (exampleProps (Some 1) None) (keyEvent "ArrowLeft")
  = ([], Ok tt).
Proof. reflexivity. Qed.

Example arrow_left_skips_narrow_box :
  _handleKeyDown examplePath (exampleProps (Some 3) None) (keyEvent "ArrowLeft")
  = ([Dispatch (changeSelectedCallNode "thread-0"%string [0; 1])], Ok tt).
Proof. reflexivity. Qed.

Example arrow_up_narrow_child :
  _handleKeyDown examplePath (exampleProps (Some 3) None) (keyEvent "ArrowUp")
  = ([], Ok tt).
Proof. reflexivity. Qed.

Example arrow_right_from_node_without_box :
  _handleKeyDown examplePath (exampleProps (Some 2) None) (keyEvent "ArrowRight")
  = ([], Ok tt).
Proof. reflexivity. Qed.

Example arrow_up_missing_row_throws :
  _handleKeyDown examplePath
    {| flameGraphTiming := [exampleRow0];
       callTree := exampleTree;
       callNodeTable := exampleTable;
       threadsKey := "thread-0"%string;
       selectedCallNodeIndex := Some 0;
       rightClickedCallNodeIndex := None |}
    (keyEvent "ArrowUp")
  = ([], ThrowTypeError).
Proof. reflexivity. Qed.

Example enter_opens_bottom_box :
  _handleKeyDown examplePath (exampleProps (Some 1) (Some 3)) (keyEvent "Enter")
  = ([Dispatch (updateBottomBoxContentsAndMaybeOpen "flame-graph" 3)], Ok tt).
Proof. reflexivity. Qed.

(** *** The theorems at the example profile *)

Lemma arrow_left_right_selects_next_wide_box_witness :
  _handleKeyDown examplePath (exampleProps (Some 1) None) (keyEvent "ArrowRight")
  = ([Dispatch (changeSelectedCallNode "thread-0"%string [0; 3])], Ok tt).
Proof.
  destruct (arrow_left_right_selects_next_wide_box examplePath exampleReduce
              (exampleProps (Some 1) None) (keyEvent "ArrowRight") 1 exampleRow1
              (or_intror eq_refl) eq_refl eq_refl)
    as (_ & _ & _ & Hfind & _).
  apply (Hfind 2 3).
  - reflexivity.
  - reflexivity.
  - reflexivity.
  - intros col' H1 H2. unfold ahead in H1, H2.
    change (if (key (keyEvent "ArrowRight") =? "ArrowLeft")%string
            then -1 else 1) with 1 in H1, H2.
    change (Js.indexOf (callNode exampleRow1) 1) with 0 in H1.
    assert (E : col' = 1) by lia. rewrite E. reflexivity.
Defined.

Lemma arrow_up_selects_first_child_if_wide_witness :
  _handleKeyDown examplePath (exampleProps (Some 0) None) (keyEvent "ArrowUp")
  = ([Dispatch (changeSelectedCallNode "thread-0"%string [0; 1])], Ok tt).
Proof.
  destruct (arrow_up_selects_first_child_if_wide examplePath exampleReduce
              (exampleProps (Some 0) None) (keyEvent "ArrowUp") 0
              eq_refl eq_refl)
    as (Hwide & _).
  apply (Hwide 1 [3; 5] exampleRow1); reflexivity.
Defined.

Lemma arrow_down_selects_parent_unless_root_witness :
  _handleKeyDown examplePath (exampleProps (Some 4) None) (keyEvent "ArrowDown")
  = ([Dispatch (changeSelectedCallNode "thread-0"%string [0; 3])], Ok tt).
Proof.
  destruct (arrow_down_selects_parent_unless_root examplePath exampleReduce
              (exampleProps (Some 4) None) (keyEvent "ArrowDown") 4 3
              eq_refl eq_refl eq_refl)
    as (Hparent & _).
  apply Hparent. discriminate.
Defined.

Lemma not_an_arrow_key_t : ~ In "t"%string arrowKeys.
Proof.
  simpl. intros [H|[H|[H|[H|H]]]]; try discriminate H. exact H.
Defined.

Lemma non_arrow_key_null_selection_guard_witness :
  _handleKeyDown examplePath (exampleProps None None) (keyEvent "t") = ([], Ok tt)
  /\ _handleKeyDown examplePath (exampleProps (Some 1) (Some 3)) (keyEvent "t")
     = ([Dispatch (handleCallNodeTransformShortcut (keyEvent "t")
                     "thread-0"%string 3)], Ok tt).
Proof.
  split.
  - destruct (non_arrow_key_null_selection_guard examplePath exampleReduce
                (exampleProps None None) (keyEvent "t") not_an_arrow_key_t)
      as (Hnull & _).
    apply Hnull; reflexivity.
  - destruct (non_arrow_key_null_selection_guard examplePath exampleReduce
                (exampleProps (Some 1) (Some 3)) (keyEvent "t")
                not_an_arrow_key_t)
      as (_ & Hright & _).
    apply (Hright 3). reflexivity.
Defined.

Lemma arrow_key_without_selection_selects_root_witness :
  _handleKeyDown examplePath (exampleProps None None) (keyEvent "ArrowLeft")
  = ([Dispatch (changeSelectedCallNode "thread-0"%string [0])], Ok tt).
Proof.
  apply (arrow_key_without_selection_selects_root examplePath
           (exampleProps None None) (keyEvent "ArrowLeft")).
  - simpl. right. right. left. reflexivity.
  - reflexivity.
Defined.

Lemma nextSelectableInRow_terminates_witness :
  exists r, _nextSelectableInRow (exampleProps (Some 2) None) 2 1 = Ok r.
Proof.
  generalize (nextSelectableInRow_terminates (exampleProps (Some 2) None) 2 1
                (or_introl eq_refl)).
  change (rowOf (exampleProps (Some 2) None) 2) with (Some exampleRow2).
  cbv beta iota zeta.
  intros (r & _ & _ & H & _). exists r. exact H.
Defined.

(** C4 at an unknown key: the key "x" is neither an arrow key nor Enter;
    with a selected node the handler hands it to the transform shortcuts,
    with none it does nothing, and in neither case is an error logged. *)
Lemma unknown_key_is_not_logged :
  ~ In "x"%string ("Enter"%string :: arrowKeys)
  /\ _handleKeyDown examplePath (exampleProps (Some 1) None) (keyEvent "x")
     = ([Dispatch (handleCallNodeTransformShortcut (keyEvent "x")
                     "thread-0"%string 1)], Ok tt)
  /\ _handleKeyDown examplePath (exampleProps None None) (keyEvent "x")
     = ([], Ok tt)
  /\ loggedErrors
       (fst (_handleKeyDown examplePath (exampleProps (Some 1) None)
               (keyEvent "x"))) = []
  /\ loggedErrors
       (fst (_handleKeyDown examplePath (exampleProps None None)
               (keyEvent "x"))) = [].
Proof.
  split; [|repeat split].
  simpl. intros [H|[H|[H|[H|[H|H]]]]]; try discriminate H. exact H.
Qed.

(** C10 at a starting node that has no box in its row: node 2 has depth 2,
    the row of depth 2 holds only the narrow box of node 4, and going right
    the loop needs two iterations, one more than the length of the row's
    [callNode] array. *)
Lemma scan_from_absent_node_needs_length_plus_one :
  rowOf (exampleProps (Some 2) None) 2 = Some exampleRow2
  /\ length (callNode exampleRow2) = 1%nat
  /\ Js.indexOf (callNode exampleRow2) 2 = -1
  /\ scanRow (length (callNode exampleRow2)) exampleRow2 1
       (Js.indexOf (callNode exampleRow2) 2) = None
  /\ scanRow (S (length (callNode exampleRow2))) exampleRow2 1
       (Js.indexOf (callNode exampleRow2) 2) = Some None
  /\ ~ (exists r,
          scanRow (length (callNode exampleRow2)) exampleRow2 1
            (Js.indexOf (callNode exampleRow2) 2) = Some r).
Proof.
  repeat split. intros (r & H). discriminate H.
Qed.

End FlameGraphFacts.

(** * Further properties of the two components *)

(** ** StackGraph.js: heights against the maximum *)

Module StackGraphBounds.

Import StackGraph.

(** X1: every height the height function reports is at most the [maxValue]
    that [render] passes along with it. *)
Theorem heightFunc_at_most_maxValue (props : Props) (sampleIndex d : Z) :
  heightFunc (render props) sampleIndex = Js.Number d ->
  d <= maxValue (render props).
Proof.
  simpl. unfold _heightFunction. intros H.
  destruct (Js.get (sampleCallNodes props) sampleIndex) as [[c|]|];
    try discriminate.
  destruct (Js.get (depth (callNodeTable props)) c) as [d'|] eqn:E;
    try discriminate.
  inversion H; subst d'.
  rewrite StackGraphFacts.maxDepthLoop_fold.
  apply StackGraphFacts.fold_bump_upper. exact (JsFacts.get_In _ _ _ _ E).
Qed.

Lemma heightFunc_at_most_maxValue_witness :
  heightFunc (render exampleProps) 0 = Js.Number 2
  /\ 2 <= maxValue (render exampleProps).
Proof.
  split; [reflexivity|].
  exact (heightFunc_at_most_maxValue exampleProps 0 2 eq_refl).
Defined.

(** X2: when every call node named by [sampleCallNodes] is an index of the
    depth column, the height function answers [null] or a number for every
    sample of the table, never [undefined]; outside the table it answers
    [undefined]. *)
Theorem heightFunction_defined_on_samples (props : Props) (sampleIndex : Z) :
  (forall i c, Js.get (sampleCallNodes props) i = Some (Some c) ->
               0 <= c < Z.of_nat (length (depth (callNodeTable props)))) ->
  (0 <= sampleIndex < Z.of_nat (length (sampleCallNodes props)) ->
   _heightFunction props sampleIndex <> Js.Undefined)
  /\ (~ 0 <= sampleIndex < Z.of_nat (length (sampleCallNodes props)) ->
      _heightFunction props sampleIndex = Js.Undefined).
Proof.
  intros Hwf. unfold _heightFunction. split.
  - intros Hi.
    destruct (JsFacts.get_in_range _ (sampleCallNodes props) _ Hi) as [e He].
    rewrite He. destruct e as [c|]; [|discriminate].
    destruct (JsFacts.get_in_range _ (depth (callNodeTable props)) c
                (Hwf _ _ He)) as [d Hd].
    rewrite Hd. discriminate.
  - intros Hi.
    assert (E : Js.get (sampleCallNodes props) sampleIndex = None)
      by (apply JsFacts.get_None_iff; lia).
    now rewrite E.
Qed.

Lemma heightFunction_defined_on_samples_witness :
  _heightFunction tidyProps 2 <> Js.Undefined
  /\ _heightFunction tidyProps 3 = Js.Undefined.
Proof.
  assert (Hwf : forall i c,
             Js.get (sampleCallNodes tidyProps) i = Some (Some c) ->
             0 <= c < Z.of_nat (length (depth (callNodeTable tidyProps)))).
  { intros i c H. pose proof (JsFacts.get_In _ _ _ _ H) as Hin. simpl in Hin.
    destruct Hin as [E|[E|[E|[]]]]; inversion E; simpl; lia. }
  destruct (heightFunction_defined_on_samples tidyProps 2 Hwf) as [Hin _].
  destruct (heightFunction_defined_on_samples tidyProps 3 Hwf) as [_ Hout].
  split; [apply Hin; simpl; lia | apply Hout; simpl; lia].
Defined.

(** X3: whatever the depth column holds, [maxValue] is never negative, it
    bounds every entry, and it is 0 or one of the entries; a column without
    a positive entry gives 0. *)
Theorem render_maxValue_never_negative (props : Props) :
  0 <= maxValue (render props)
  /\ (forall d, In d (depth (callNodeTable props)) -> d <= maxValue (render props))
  /\ (maxValue (render props) = 0
      \/ In (maxValue (render props)) (depth (callNodeTable props)))
  /\ (Forall (fun d => d <= 0) (depth (callNodeTable props)) ->
      maxValue (render props) = 0).
Proof.
  simpl. rewrite StackGraphFacts.maxDepthLoop_fold.
  set (col := depth (callNodeTable props)).
  pose proof (StackGraphFacts.fold_bump_ge_acc col 0) as Hge.
  pose proof (StackGraphFacts.fold_bump_attained col 0) as Hat.
  split; [exact Hge|split; [|split; [exact Hat|]]].
  - intros d Hin. now apply StackGraphFacts.fold_bump_upper.
  - intros Hall. destruct Hat as [E|Hin]; [exact E|].
    rewrite Forall_forall in Hall. specialize (Hall _ Hin). lia.
Qed.

End StackGraphBounds.

(** ** The flame graph component: how the handler ends and what it emits *)

Module FlameGraphNavigation.

Import FlameGraph.

Section Navigation.

Context {ThreadsKey BottomBoxInfo CallNodePath : Type}.
Variable getCallNodePathFromIndex : Js.Value -> CallNodeTable -> CallNodePath.

(** The handler, key by key. *)
Lemma key_cases (k : string) :
  k = "ArrowDown"%string \/ k = "ArrowUp"%string \/ k = "ArrowLeft"%string
  \/ k = "ArrowRight"%string \/ includes arrowKeys k = false.
Proof.
  destruct (includes arrowKeys k) eqn:E; [|tauto].
  apply FlameGraphFacts.includes_arrowKeys in E. simpl in E.
  destruct E as [E|[E|[E|[E|[]]]]]; subst k; tauto.
Qed.

Lemma handleKeyDown_down (props : @Props ThreadsKey BottomBoxInfo)
  (event : KeyboardEvent) (selected : Z) :
  key event = "ArrowDown"%string ->
  selectedCallNodeIndex props = Some selected ->
  _handleKeyDown getCallNodePathFromIndex props event
  = match Js.get (prefix (callNodeTable props)) selected with
    | Some (-1) => ([], Ok tt)
    | p => ([selectCallNode getCallNodePathFromIndex props (Js.ofRead p)], Ok tt)
    end.
Proof.
  intros H Hsel. unfold _handleKeyDown. rewrite H, Hsel. reflexivity.
Qed.

Lemma handleKeyDown_up (props : @Props ThreadsKey BottomBoxInfo)
  (event : KeyboardEvent) (selected : Z) :
  key event = "ArrowUp"%string ->
  selectedCallNodeIndex props = Some selected ->
  _handleKeyDown getCallNodePathFromIndex props event
  = match getChildren (callTree props) selected with
    | [] => ([], Ok tt)
    | callNodeIndex :: _ =>
        match _wideEnough props callNodeIndex with
        | Ok true =>
            ([selectCallNode getCallNodePathFromIndex props
                (Js.Number callNodeIndex)], Ok tt)
        | Ok false => ([], Ok tt)
        | ThrowTypeError => ([], ThrowTypeError)
        | OutOfFuel => ([], OutOfFuel)
        end
    end.
Proof.
  intros H Hsel. unfold _handleKeyDown. rewrite H, Hsel. reflexivity.
Qed.

Lemma handleKeyDown_no_selection (props : @Props ThreadsKey BottomBoxInfo)
  (event : KeyboardEvent) :
  includes arrowKeys (key event) = true ->
  selectedCallNodeIndex props = None ->
  _handleKeyDown getCallNodePathFromIndex props event
  = ([selectCallNode getCallNodePathFromIndex props (Js.Number 0)], Ok tt).
Proof.
  intros H Hsel. unfold _handleKeyDown. now rewrite H, Hsel.
Qed.

Lemma handleKeyDown_other (props : @Props ThreadsKey BottomBoxInfo)
  (event : KeyboardEvent) :
  includes arrowKeys (key event) = false ->
  _handleKeyDown getCallNodePathFromIndex props event
  = match
      match rightClickedCallNodeIndex props with
      | Some rightClicked => Some rightClicked
      | None => selectedCallNodeIndex props
      end
    with
    | None => ([], Ok tt)
    | Some nodeIndex =>
        if (key event =? "Enter")%string
        then (_onCallNodeEnterOrDoubleClick props (Some nodeIndex), Ok tt)
        else ([Dispatch
                 (handleCallNodeTransformShortcut event (threadsKey props)
                    nodeIndex)], Ok tt)
    end.
Proof.
  intros H. unfold _handleKeyDown. now rewrite H.
Qed.

(** With a direction of -1 or 1 the method throws for a missing row and
    returns otherwise. *)
Lemma nextSelectableInRow_outcome (props : @Props ThreadsKey BottomBoxInfo)
  (start direction : Z) :
  direction = 1 \/ direction = -1 ->
  match rowOf props start with
  | None => _nextSelectableInRow props start direction = ThrowTypeError
  | Some _ => exists r, _nextSelectableInRow props start direction = Ok r
  end.
Proof.
  intros Hdir. unfold _nextSelectableInRow.
  destruct (rowOf props start) as [row|]; [|reflexivity].
  destruct (FlameGraphFacts.scanRow_terminates row direction
              (Js.indexOf (callNode row) start) (S (length (callNode row)))
              Hdir (FlameGraphFacts.indexOf_bounds row start))
    as [r Hr]; [left; lia|].
  exists r. now rewrite Hr.
Qed.

Ltac key_clash :=
  match goal with
  | H : key ?e = _, H' : key ?e = _ |- _ => rewrite H in H'; discriminate H'
  | H : includes arrowKeys (key ?e) = false, H' : key ?e = _ |- _ =>
      rewrite H' in H; discriminate H
  end.

(** X4: the handler ends on every key event: it either returns or throws a
    TypeError, and it never exhausts the loop budget. It throws exactly when
    a node is selected and either the key is ArrowUp and the row of the
    first child's depth is missing, or the key is ArrowLeft or ArrowRight
    and the row of the selected node's depth is missing; nothing has been
    dispatched when it throws. *)
Theorem handleKeyDown_throws_only_on_missing_row
  (props : @Props ThreadsKey BottomBoxInfo) (event : KeyboardEvent) :
  snd (_handleKeyDown getCallNodePathFromIndex props event) <> OutOfFuel
  /\ (snd (_handleKeyDown getCallNodePathFromIndex props event) = ThrowTypeError
      -> fst (_handleKeyDown getCallNodePathFromIndex props event) = [])
  /\ (snd (_handleKeyDown getCallNodePathFromIndex props event) = ThrowTypeError
      <-> exists selected,
            selectedCallNodeIndex props = Some selected /\
            ((key event = "ArrowUp"%string /\
              exists child rest,
                getChildren (callTree props) selected = child :: rest /\
                rowOf props child = None)
             \/ ((key event = "ArrowLeft"%string \/
                  key event = "ArrowRight"%string) /\
                 rowOf props selected = None))).
Proof.
  destruct (key_cases (key event)) as [Hk|[Hk|[Hk|[Hk|Hk]]]].
  - (* ArrowDown *)
    destruct (selectedCallNodeIndex props) as [sel|] eqn:Hsel.
    + rewrite (handleKeyDown_down props event sel Hk Hsel).
      destruct (Js.get (prefix (callNodeTable props)) sel) as [[|q|[q|q|]]|];
        simpl; (split; [discriminate|split; [discriminate|]]);
        (split; [discriminate|]);
        intros (s & _ & [[E _]|[[E|E] _]]); key_clash.
    + rewrite (handleKeyDown_no_selection props event)
        by (exact Hsel || (rewrite Hk; reflexivity)).
      simpl.
      split; [discriminate|split; [discriminate|]].
      split; [discriminate|]. intros (s & E & _). discriminate E.
  - (* ArrowUp *)
    destruct (selectedCallNodeIndex props) as [sel|] eqn:Hsel.
    + rewrite (handleKeyDown_up props event sel Hk Hsel). unfold _wideEnough.
      destruct (getChildren (callTree props) sel) as [|child rest] eqn:Hch.
      * simpl. split; [discriminate|split; [discriminate|]].
        split; [discriminate|].
        intros (s & Es & [(_ & c & r & E & _)|[[E|E] _]]); [|key_clash..].
        inversion Es; subst s. rewrite Hch in E. discriminate E.
      * destruct (rowOf props child) as [row|] eqn:Hrow.
        -- destruct (wideAt row (Js.indexOf (callNode row) child)); simpl;
             (split; [discriminate|split; [discriminate|]]);
             (split; [discriminate|]);
             (intros (s & Es & [(_ & c & r & E & Hnone)|[[E|E] _]]);
              [|key_clash..]);
             inversion Es; subst s; rewrite Hch in E; inversion E; subst c;
             rewrite Hrow in Hnone; discriminate Hnone.
        -- simpl. split; [discriminate|split; [reflexivity|]].
           split; [intros _|reflexivity].
           exists sel. split; [reflexivity|]. left. split; [exact Hk|].
           now exists child, rest.
    + rewrite (handleKeyDown_no_selection props event)
        by (exact Hsel || (rewrite Hk; reflexivity)).
      simpl.
      split; [discriminate|split; [discriminate|]].
      split; [discriminate|]. intros (s & E & _). discriminate E.
  - (* ArrowLeft *)
    destruct (selectedCallNodeIndex props) as [sel|] eqn:Hsel.
    + rewrite (FlameGraphFacts.handleKeyDown_left_right
                 getCallNodePathFromIndex props event sel (or_introl Hk) Hsel).
      assert (Hdir : (if (key event =? "ArrowLeft")%string then -1 else 1) = 1
                     \/ (if (key event =? "ArrowLeft")%string then -1 else 1) = -1)
        by (rewrite Hk; now right).
      pose proof (nextSelectableInRow_outcome props sel _ Hdir) as Hout.
      destruct (rowOf props sel) as [row|] eqn:Hrow.
      * destruct Hout as [r Hr]. rewrite Hr.
        destruct r; simpl; (split; [discriminate|split; [discriminate|]]);
          (split; [discriminate|]);
          (intros (s & Es & [(E & _)|(_ & Hnone)]); [key_clash|]);
          inversion Es; subst s; rewrite Hrow in Hnone; discriminate Hnone.
      * rewrite Hout. simpl. split; [discriminate|split; [reflexivity|]].
        split; [intros _|reflexivity].
        exists sel. split; [reflexivity|]. right. split; [now left|exact Hrow].
    + rewrite (handleKeyDown_no_selection props event)
        by (exact Hsel || (rewrite Hk; reflexivity)).
      simpl.
      split; [discriminate|split; [discriminate|]].
      split; [discriminate|]. intros (s & E & _). discriminate E.
  - (* ArrowRight *)
    destruct (selectedCallNodeIndex props) as [sel|] eqn:Hsel.
    + rewrite (FlameGraphFacts.handleKeyDown_left_right
                 getCallNodePathFromIndex props event sel (or_intror Hk) Hsel).
      assert (Hdir : (if (key event =? "ArrowLeft")%string then -1 else 1) = 1
                     \/ (if (key event =? "ArrowLeft")%string then -1 else 1) = -1)
        by (rewrite Hk; now left).
      pose proof (nextSelectableInRow_outcome props sel _ Hdir) as Hout.
      destruct (rowOf props sel) as [row|] eqn:Hrow.
      * destruct Hout as [r Hr]. rewrite Hr.
        destruct r; simpl; (split; [discriminate|split; [discriminate|]]);
          (split; [discriminate|]);
          (intros (s & Es & [(E & _)|(_ & Hnone)]); [key_clash|]);
          inversion Es; subst s; rewrite Hrow in Hnone; discriminate Hnone.
      * rewrite Hout. simpl. split; [discriminate|split; [reflexivity|]].
        split; [intros _|reflexivity].
        exists sel. split; [reflexivity|]. right. split; [now right|exact Hrow].
    + rewrite (handleKeyDown_no_selection props event)
        by (exact Hsel || (rewrite Hk; reflexivity)).
      simpl.
      split; [discriminate|split; [discriminate|]].
      split; [discriminate|]. intros (s & E & _). discriminate E.
  - (* any other key *)
    rewrite (handleKeyDown_other props event Hk).
    destruct (rightClickedCallNodeIndex props) as [r|];
      [|destruct (selectedCallNodeIndex props) as [n|]];
      try destruct (key event =? "Enter")%string; simpl;
      (split; [discriminate|split; [discriminate|]]);
      (split; [discriminate|]);
      intros (s & _ & [[E _]|[[E|E] _]]); key_clash.
Qed.

(** X5: the handler emits at most one effect, and which action it can be is
    fixed by the key: an arrow key only ever changes the selection, Enter
    only ever opens the bottom box, and any other key only ever reaches the
    transform shortcuts. *)
Theorem handleKeyDown_effect_by_key
  (props : @Props ThreadsKey BottomBoxInfo) (event : KeyboardEvent) :
  (length (fst (_handleKeyDown getCallNodePathFromIndex props event)) <= 1)%nat
  /\ (forall e,
        In e (fst (_handleKeyDown getCallNodePathFromIndex props event)) ->
        (In (key event) arrowKeys /\
         exists v, e = Dispatch
                         (changeSelectedCallNode (threadsKey props)
                            (getCallNodePathFromIndex v (callNodeTable props))))
        \/ (key event = "Enter"%string /\
            exists n, e = Dispatch
                            (updateBottomBoxContentsAndMaybeOpen "flame-graph"
                               (getBottomBoxInfoForCallNode (callTree props) n)))
        \/ (~ In (key event) arrowKeys /\ key event <> "Enter"%string /\
            exists n, e = Dispatch
                            (handleCallNodeTransformShortcut event
                               (threadsKey props) n))).
Proof.
  assert (Harrow : forall e v,
             In (key event) arrowKeys ->
             In e [selectCallNode getCallNodePathFromIndex props v] ->
             (In (key event) arrowKeys /\
              exists v, e = Dispatch
                              (changeSelectedCallNode (threadsKey props)
                                 (getCallNodePathFromIndex v (callNodeTable props))))
             \/ (key event = "Enter"%string /\
                 exists n, e = Dispatch
                                 (updateBottomBoxContentsAndMaybeOpen "flame-graph"
                                    (getBottomBoxInfoForCallNode (callTree props) n)))
             \/ (~ In (key event) arrowKeys /\ key event <> "Enter"%string /\
                 exists n, e = Dispatch
                                 (handleCallNodeTransformShortcut event
                                    (threadsKey props) n))).
  { intros e v Hin [E|[]]. left. split; [exact Hin|]. now exists v. }
  destruct (includes arrowKeys (key event)) eqn:Hinc.
  - assert (Hin : In (key event) arrowKeys)
      by now apply FlameGraphFacts.includes_arrowKeys.
    destruct (selectedCallNodeIndex props) as [sel|] eqn:Hsel.
    + destruct (key_cases (key event)) as [Hk|[Hk|[Hk|[Hk|Hk]]]];
        [| | | |congruence].
      * rewrite (handleKeyDown_down props event sel Hk Hsel).
        destruct (Js.get (prefix (callNodeTable props)) sel) as [[|q|[q|q|]]|];
          simpl fst; (split; [simpl; lia|]); intros e He;
          solve [destruct He | eapply Harrow; eauto].
      * rewrite (handleKeyDown_up props event sel Hk Hsel).
        destruct (getChildren (callTree props) sel) as [|child rest];
          [|destruct (_wideEnough props child) as [[|]| |]];
          simpl fst; (split; [simpl; lia|]); intros e He;
          solve [destruct He | eapply Harrow; eauto].
      * rewrite (FlameGraphFacts.handleKeyDown_left_right
                   getCallNodePathFromIndex props event sel (or_introl Hk) Hsel).
        destruct (_nextSelectableInRow props sel _) as [[n|]| |];
          simpl fst; (split; [simpl; lia|]); intros e He;
          solve [destruct He | eapply Harrow; eauto].
      * rewrite (FlameGraphFacts.handleKeyDown_left_right
                   getCallNodePathFromIndex props event sel (or_intror Hk) Hsel).
        destruct (_nextSelectableInRow props sel _) as [[n|]| |];
          simpl fst; (split; [simpl; lia|]); intros e He;
          solve [destruct He | eapply Harrow; eauto].
    + rewrite (handleKeyDown_no_selection props event Hinc Hsel).
      simpl fst. split; [simpl; lia|]. intros e He. eapply Harrow; eauto.
  - assert (Hnot : ~ In (key event) arrowKeys).
    { intros Hin. apply FlameGraphFacts.includes_arrowKeys in Hin. congruence. }
    rewrite (handleKeyDown_other props event Hinc).
    destruct (match rightClickedCallNodeIndex props with
              | Some rightClicked => Some rightClicked
              | None => selectedCallNodeIndex props
              end) as [n|].
    + destruct (String.eqb_spec (key event) "Enter") as [HE|HE]; simpl fst.
      * split; [simpl; lia|]. intros e [E|[]]. right. left.
        split; [exact HE|]. now exists n.
      * split; [simpl; lia|]. intros e [E|[]]. right. right.
        split; [exact Hnot|split; [exact HE|]]. now exists n.
    + simpl. split; [lia|]. intros e [].
Qed.

(** *** Where the horizontal scan can land *)

(** A call node the loop returns sits in the first wide column ahead. *)
Lemma scanRow_result_first (row : TimingRow) (direction : Z) (fuel : nat) :
  forall (columnIndex n : Z),
    scanRow fuel row direction columnIndex = Some (Some n) ->
    exists k : nat,
      (1 <= k <= fuel)%nat /\
      Js.get (callNode row) (columnIndex + Z.of_nat k * direction) = Some n /\
      wideAt row (columnIndex + Z.of_nat k * direction) = true /\
      forall j : nat, (1 <= j < k)%nat ->
        wideAt row (columnIndex + Z.of_nat j * direction) = false /\
        Js.get (callNode row) (columnIndex + Z.of_nat j * direction) <> None.
Proof.
  induction fuel as [|fuel IH]; intros columnIndex n H; [discriminate|].
  rewrite FlameGraphFacts.scanRow_step in H.
  assert (E1 : columnIndex + Z.of_nat 1 * direction = columnIndex + direction)
    by lia.
  destruct (wideAt row (columnIndex + direction)) eqn:W.
  - exists 1%nat. inversion H as [E]. rewrite E1.
    repeat split; [lia|lia|exact W|lia|lia].
  - destruct (Js.get (callNode row) (columnIndex + direction)) as [m|] eqn:G;
      [|discriminate].
    destruct (IH _ _ H) as (k & Hk & Hget & Hwide & Hbefore).
    assert (Eshift : forall j : nat,
               columnIndex + Z.of_nat (S j) * direction
               = columnIndex + direction + Z.of_nat j * direction)
      by (intros; lia).
    exists (S k). rewrite Eshift.
    split; [lia|split; [exact Hget|split; [exact Hwide|]]].
    intros j Hj. destruct j as [|j]; [lia|].
    destruct (Nat.eq_dec j 0) as [->|Hj0].
    + rewrite E1. split; [exact W|congruence].
    + rewrite Eshift. apply Hbefore. lia.
Qed.

(** In an array without repeats [indexOf] gives back the position of an
    element. *)
Lemma indexOfFrom_NoDup (a : list Z) :
  forall (x i offset : Z),
    NoDup a -> Js.get a i = Some x -> Js.indexOfFrom a x offset = offset + i.
Proof.
  induction a as [|y a IH]; intros x i offset Hnd Hget.
  - rewrite JsFacts.get_nil in Hget. discriminate.
  - pose proof (JsFacts.get_Some_range _ _ _ _ Hget) as Hr.
    inversion Hnd as [|? ? Hnotin Hnd']; subst. simpl.
    destruct (Z.eq_dec i 0) as [->|Hi].
    + simpl in Hget. inversion Hget; subst. rewrite Z.eqb_refl. lia.
    + replace i with (i - 1 + 1) in Hget by lia.
      rewrite JsFacts.get_cons in Hget by lia.
      destruct (Z.eqb_spec y x) as [->|Hne].
      * exfalso. apply Hnotin. exact (JsFacts.get_In _ _ _ _ Hget).
      * rewrite (IH x (i - 1) (offset + 1) Hnd' Hget). lia.
Qed.

Lemma indexOf_NoDup (a : list Z) (x i : Z) :
  NoDup a -> Js.get a i = Some x -> Js.indexOf a x = i.
Proof.
  intros Hnd Hget. unfold Js.indexOf.
  now rewrite (indexOfFrom_NoDup a x i 0 Hnd Hget).
Qed.

(** A result of the method comes from the loop run on an existing row. *)
Lemma nextSelectableInRow_inv (props : @Props ThreadsKey BottomBoxInfo)
  (start direction : Z) (r : option Z) :
  _nextSelectableInRow props start direction = Ok r ->
  exists row,
    rowOf props start = Some row /\
    scanRow (S (length (callNode row))) row direction
      (Js.indexOf (callNode row) start) = Some r.
Proof.
  unfold _nextSelectableInRow. intros H.
  destruct (rowOf props start) as [row|]; [|discriminate].
  exists row. split; [reflexivity|].
  destruct (scanRow (S (length (callNode row))) row direction
              (Js.indexOf (callNode row) start)) as [r'|];
    [|discriminate].
  now inversion H.
Qed.

(** X6: a call node that [_nextSelectableInRow] returns is a call node of
    the starting node's row: its column lies a positive number of steps from
    the column [indexOf] found, its box is wide, and every column stepped
    over on the way holds a narrow box. *)
Theorem nextSelectableInRow_sound (props : @Props ThreadsKey BottomBoxInfo)
  (start direction n : Z) :
  _nextSelectableInRow props start direction = Ok (Some n) ->
  exists (row : TimingRow) (k : nat),
    rowOf props start = Some row /\ (1 <= k)%nat /\
    Js.get (callNode row)
      (Js.indexOf (callNode row) start + Z.of_nat k * direction) = Some n /\
    In n (callNode row) /\
    wideAt row (Js.indexOf (callNode row) start + Z.of_nat k * direction) = true /\
    forall j : nat, (1 <= j < k)%nat ->
      wideAt row (Js.indexOf (callNode row) start + Z.of_nat j * direction)
      = false.
Proof.
  intros H.
  destruct (nextSelectableInRow_inv props start direction _ H)
    as (row & Hrow & Hscan).
  destruct (scanRow_result_first _ _ _ _ _ Hscan)
    as (k & Hk & Hget & Hwide & Hbefore).
  exists row, k. repeat split; try assumption; try lia.
  - exact (JsFacts.get_In _ _ _ _ Hget).
  - intros j Hj. now apply Hbefore.
Qed.

(** X7: in a row without repeated call nodes, stepping from a node with a
    wide box to the next selectable node and then stepping the other way
    from there comes back to the first node. *)
Theorem nextSelectableInRow_there_and_back
  (props : @Props ThreadsKey BottomBoxInfo) (a b direction : Z)
  (row : TimingRow) :
  direction = 1 \/ direction = -1 ->
  rowOf props a = Some row ->
  rowOf props b = Some row ->
  NoDup (callNode row) ->
  In a (callNode row) ->
  wideAt row (Js.indexOf (callNode row) a) = true ->
  _nextSelectableInRow props a direction = Ok (Some b) ->
  _nextSelectableInRow props b (- direction) = Ok (Some a).
Proof.
  intros Hdir Hrowa Hrowb Hnd Hina Hwidea Hnext.
  destruct (nextSelectableInRow_inv props a direction _ Hnext)
    as (row' & Hrow' & Hscan).
  rewrite Hrowa in Hrow'. inversion Hrow'; subst row'. clear Hrow'.
  destruct (scanRow_result_first _ _ _ _ _ Hscan)
    as (k & Hk & Hget & Hwide & Hbefore).
  set (ca := Js.indexOf (callNode row) a) in *.
  pose proof (indexOf_NoDup _ _ _ Hnd Hget) as Hcb.
  apply (FlameGraphFacts.nextSelectableInRow_finds props b (- direction) row
           ca a).
  - destruct Hdir as [-> | ->]; auto.
  - exact Hrowb.
  - unfold ahead. rewrite Hcb. destruct Hdir as [-> | ->]; lia.
  - now apply JsFacts.indexOf_found.
  - exact Hwidea.
  - intros col'. unfold ahead. rewrite Hcb. intros H1 H2.
    replace col' with (ca + Z.of_nat (Z.to_nat ((col' - ca) * direction))
                            * direction)
      by (destruct Hdir as [-> | ->]; lia).
    apply Hbefore. destruct Hdir as [-> | ->]; lia.
Qed.

(** X8: when the selected node has no box in the row of its depth,
    [indexOf] answers -1: ArrowLeft then dispatches nothing, while
    ArrowRight scans the row from its first column and selects the first
    call node with a wide box. *)
Theorem arrows_from_node_without_box
  (props : @Props ThreadsKey BottomBoxInfo) (event : KeyboardEvent)
  (selected : Z) (row : TimingRow) :
  selectedCallNodeIndex props = Some selected ->
  rowOf props selected = Some row ->
  ~ In selected (callNode row) ->
  (key event = "ArrowLeft"%string ->
   _handleKeyDown getCallNodePathFromIndex props event = ([], Ok tt))
  /\ (key event = "ArrowRight"%string ->
      forall col n,
        Js.get (callNode row) col = Some n ->
        wideAt row col = true ->
        (forall col', 0 <= col' < col -> wideAt row col' = false) ->
        _handleKeyDown getCallNodePathFromIndex props event
        = ([Dispatch
              (changeSelectedCallNode (threadsKey props)
                 (getCallNodePathFromIndex (Js.Number n) (callNodeTable props)))],
           Ok tt)).
Proof.
  intros Hsel Hrow Hnot.
  assert (Hc : Js.indexOf (callNode row) selected = -1)
    by (apply FlameGraphFacts.indexOfFrom_absent; exact Hnot).
  split; intros Hk.
  - rewrite (FlameGraphFacts.handleKeyDown_left_right
               getCallNodePathFromIndex props event selected (or_introl Hk) Hsel).
    rewrite Hk. change (("ArrowLeft" =? "ArrowLeft")%string) with true.
    cbv iota.
    rewrite (FlameGraphFacts.nextSelectableInRow_runs_off props selected (-1) row);
      auto.
    intros col. unfold ahead. rewrite Hc. intros Hahead Hget.
    destruct (Js.get (callNode row) col) as [x|] eqn:G; [|congruence].
    apply JsFacts.get_Some_range in G. lia.
  - intros col n Hget Hwide Hbefore.
    rewrite (FlameGraphFacts.handleKeyDown_left_right
               getCallNodePathFromIndex props event selected (or_intror Hk) Hsel).
    rewrite Hk. change (("ArrowRight" =? "ArrowLeft")%string) with false.
    cbv iota.
    rewrite (FlameGraphFacts.nextSelectableInRow_finds props selected 1 row col n);
      auto.
    + unfold ahead. rewrite Hc. apply JsFacts.get_Some_range in Hget. lia.
    + intros col'. unfold ahead. rewrite Hc. intros H1 H2.
      apply Hbefore. lia.
Qed.

(** X9: at the ends of a row the selection stays: ArrowLeft from the call
    node in the first column, and ArrowRight from a call node whose column
    is the last one, dispatch nothing. *)
Theorem arrows_at_row_ends
  (props : @Props ThreadsKey BottomBoxInfo) (event : KeyboardEvent)
  (selected : Z) (row : TimingRow) :
  selectedCallNodeIndex props = Some selected ->
  rowOf props selected = Some row ->
  (key event = "ArrowLeft"%string ->
   Js.indexOf (callNode row) selected = 0 ->
   _handleKeyDown getCallNodePathFromIndex props event = ([], Ok tt))
  /\ (key event = "ArrowRight"%string ->
      Js.indexOf (callNode row) selected = Z.of_nat (length (callNode row)) - 1 ->
      _handleKeyDown getCallNodePathFromIndex props event = ([], Ok tt))
  /\ (key event = "ArrowLeft"%string ->
      forall rest, callNode row = selected :: rest ->
      _handleKeyDown getCallNodePathFromIndex props event = ([], Ok tt)).
Proof.
  intros Hsel Hrow.
  assert (Hleft : key event = "ArrowLeft"%string ->
                  Js.indexOf (callNode row) selected = 0 ->
                  _handleKeyDown getCallNodePathFromIndex props event
                  = ([], Ok tt)).
  { intros Hk Hc.
    rewrite (FlameGraphFacts.handleKeyDown_left_right
               getCallNodePathFromIndex props event selected (or_introl Hk) Hsel).
    rewrite Hk. change (("ArrowLeft" =? "ArrowLeft")%string) with true.
    cbv iota.
    rewrite (FlameGraphFacts.nextSelectableInRow_runs_off props selected (-1) row);
      auto.
    intros col. unfold ahead. rewrite Hc. intros Hahead Hget.
    destruct (Js.get (callNode row) col) as [x|] eqn:G; [|congruence].
    apply JsFacts.get_Some_range in G. lia. }
  split; [exact Hleft|split].
  - intros Hk Hc.
    rewrite (FlameGraphFacts.handleKeyDown_left_right
               getCallNodePathFromIndex props event selected (or_intror Hk) Hsel).
    rewrite Hk. change (("ArrowRight" =? "ArrowLeft")%string) with false.
    cbv iota.
    rewrite (FlameGraphFacts.nextSelectableInRow_runs_off props selected 1 row);
      auto.
    intros col. unfold ahead. rewrite Hc. intros Hahead Hget.
    destruct (Js.get (callNode row) col) as [x|] eqn:G; [|congruence].
    apply JsFacts.get_Some_range in G. lia.
  - intros Hk rest Hrest. apply Hleft; [exact Hk|].
    rewrite Hrest. unfold Js.indexOf. simpl. now rewrite Z.eqb_refl.
Qed.

(** X10: ArrowDown with a selected node always returns normally, and it
    leaves the selection alone only when the node's [prefix] entry is
    exactly -1; for a selected index outside the table the entry is
    [undefined], which is not -1, and a selection change for [undefined] is
    dispatched. *)
Theorem arrow_down_outside_table
  (props : @Props ThreadsKey BottomBoxInfo) (event : KeyboardEvent)
  (selected : Z) :
  key event = "ArrowDown"%string ->
  selectedCallNodeIndex props = Some selected ->
  snd (_handleKeyDown getCallNodePathFromIndex props event) = Ok tt
  /\ (fst (_handleKeyDown getCallNodePathFromIndex props event) = []
      <-> Js.get (prefix (callNodeTable props)) selected = Some (-1))
  /\ (Js.get (prefix (callNodeTable props)) selected = None ->
      _handleKeyDown getCallNodePathFromIndex props event
      = ([Dispatch
            (changeSelectedCallNode (threadsKey props)
               (getCallNodePathFromIndex Js.Undefined (callNodeTable props)))],
         Ok tt)).
Proof.
  intros Hk Hsel. rewrite (handleKeyDown_down props event selected Hk Hsel).
  destruct (Js.get (prefix (callNodeTable props)) selected)
    as [[|q|[q|q|]]|]; simpl;
    (split; [reflexivity|split; [split|]]); intros; try discriminate;
    reflexivity.
Qed.

(** X11: ArrowUp dispatches nothing when the first child has no box in the
    row of its depth: [indexOf] answers -1 there and the width read at
    column -1 is NaN. *)
Theorem arrow_up_child_without_box
  (props : @Props ThreadsKey BottomBoxInfo) (event : KeyboardEvent)
  (selected child : Z) (rest : list Z) (row : TimingRow) :
  key event = "ArrowUp"%string ->
  selectedCallNodeIndex props = Some selected ->
  getChildren (callTree props) selected = child :: rest ->
  rowOf props child = Some row ->
  ~ In child (callNode row) ->
  _handleKeyDown getCallNodePathFromIndex props event = ([], Ok tt).
Proof.
  intros Hk Hsel Hch Hrow Hnot.
  rewrite (handleKeyDown_up props event selected Hk Hsel), Hch.
  now rewrite (FlameGraphFacts.wideEnough_absent props child row Hrow Hnot).
Qed.

(** X12: in a row without repeated call nodes, a node that left or right
    navigation returns passes the width test ArrowUp applies: for a node of
    that same row [_wideEnough] answers true. *)
Theorem nextSelectableInRow_is_wideEnough
  (props : @Props ThreadsKey BottomBoxInfo) (start direction n : Z)
  (row : TimingRow) :
  rowOf props start = Some row ->
  rowOf props n = Some row ->
  NoDup (callNode row) ->
  _nextSelectableInRow props start direction = Ok (Some n) ->
  _wideEnough props n = Ok true.
Proof.
  intros Hrow Hrown Hnd Hnext.
  destruct (nextSelectableInRow_inv props start direction _ Hnext)
    as (row' & Hrow' & Hscan).
  rewrite Hrow in Hrow'. inversion Hrow'; subst row'.
  destruct (scanRow_result_first _ _ _ _ _ Hscan)
    as (k & _ & Hget & Hwide & _).
  unfold _wideEnough. rewrite Hrown.
  now rewrite (indexOf_NoDup _ _ _ Hnd Hget), Hwide.
Qed.

End Navigation.

(** *** The properties at the example profile *)

Lemma exampleRow1_NoDup : NoDup (callNode exampleRow1).
Proof.
  simpl. repeat constructor; simpl; intros H;
    repeat (destruct H as [H|H]; [discriminate H|]); exact H.
Defined.

Lemma nextSelectableInRow_sound_witness :
  exists row, rowOf (exampleProps (Some 1) None) 1 = Some row
              /\ In 3 (callNode row).
Proof.
  destruct (nextSelectableInRow_sound (exampleProps (Some 1) None) 1 1 3 eq_refl)
    as (row & k & Hrow & _ & _ & Hin & _).
  exists row. split; assumption.
Defined.

Lemma nextSelectableInRow_there_and_back_witness :
  _nextSelectableInRow (exampleProps (Some 1) None) 1 1 = Ok (Some 3)
  /\ _nextSelectableInRow (exampleProps (Some 1) None) 3 (- (1)) = Ok (Some 1).
Proof.
  split; [reflexivity|].
  apply (nextSelectableInRow_there_and_back (exampleProps (Some 1) None) 1 3 1
           exampleRow1 (or_introl eq_refl) eq_refl eq_refl exampleRow1_NoDup).
  - simpl. now left.
  - reflexivity.
  - reflexivity.
Defined.

Lemma arrows_from_node_without_box_witness :
  _handleKeyDown examplePath (exampleProps (Some 2) None) (keyEvent "ArrowLeft")
  = ([], Ok tt).
Proof.
  assert (Hnot : ~ In 2 (callNode exampleRow2)).
  { simpl. intros [H|H]; [discriminate H|exact H]. }
  destruct (arrows_from_node_without_box examplePath
              (exampleProps (Some 2) None) (keyEvent "ArrowLeft") 2 exampleRow2
              eq_refl eq_refl Hnot) as [Hleft _].
  apply Hleft. reflexivity.
Defined.

Lemma arrows_at_row_ends_witness :
  _handleKeyDown examplePath (exampleProps (Some 1) None) (keyEvent "ArrowLeft")
  = ([], Ok tt)
  /\ _handleKeyDown examplePath (exampleProps (Some 3) None)
       (keyEvent "ArrowRight")
     = ([], Ok tt).
Proof.
  split.
  - destruct (arrows_at_row_ends examplePath (exampleProps (Some 1) None)
                (keyEvent "ArrowLeft") 1 exampleRow1 eq_refl eq_refl)
      as [Hleft _].
    apply Hleft; reflexivity.
  - destruct (arrows_at_row_ends examplePath (exampleProps (Some 3) None)
                (keyEvent "ArrowRight") 3 exampleRow1 eq_refl eq_refl)
      as (_ & Hright & _).
    apply Hright; reflexivity.
Defined.

Lemma arrow_down_outside_table_witness :
  _handleKeyDown examplePath (exampleProps (Some 17) None) (keyEvent "ArrowDown")
  = ([Dispatch (changeSelectedCallNode "thread-0"%string [])], Ok tt).
Proof.
  destruct (arrow_down_outside_table examplePath (exampleProps (Some 17) None)
              (keyEvent "ArrowDown") 17 eq_refl eq_refl) as (_ & _ & Hout).
  apply Hout. reflexivity.
Defined.

Lemma arrow_up_child_without_box_witness :
  _handleKeyDown examplePath idleChildProps (keyEvent "ArrowUp") = ([], Ok tt).
Proof.
  apply (arrow_up_child_without_box examplePath idleChildProps
           (keyEvent "ArrowUp") 1 2 [] exampleRow2); try reflexivity.
  simpl. intros [H|H]; [discriminate H|exact H].
Defined.

Lemma nextSelectableInRow_is_wideEnough_witness :
  _wideEnough (exampleProps (Some 1) None) 3 = Ok true.
Proof.
  exact (nextSelectableInRow_is_wideEnough (exampleProps (Some 1) None) 1 1 3
           exampleRow1 eq_refl eq_refl exampleRow1_NoDup eq_refl).
Defined.

End FlameGraphNavigation.
